(** * The V LIVE extractors of [youtube_dlc/extractor/vlive.py]

    A shallow embedding of the three extractors ([VLiveIE],
    [VLiveChannelIE], [VLivePlaylistIE]) together with the fragment of
    Python they rely on: JSON values with Python's truthiness, [str] and
    subscripting, the backtracking regular expressions of [re], and a
    state-and-exception monad that records every request the extractor
    sends to the host framework.

    Text is a sequence of code points, one character each; the
    characters are the 256 of [ascii], so the text modelled is the text
    whose code points are below 256. *)

From Stdlib Require Import List String Ascii ZArith Bool Lia Arith.
From Stdlib Require Import DecimalString DecimalPos.
Import ListNotations.
Open Scope string_scope.
Set Warnings "-register-all".

(** ** Python values *)

Module Py.

(** What [json.loads] hands to the extractor.  Numbers are the integer
    case; a dict is its list of items in insertion order. *)
Inductive json :=
| JNull
| JBool (b : bool)
| JInt (z : Z)
| JStr (s : string)
| JList (l : list json)
| JObj (items : list (string * json)).

(** Exceptions of the language runtime that the extractor can trigger. *)
Inductive pyexc :=
  KeyError | TypeError | AttributeError | IndexError | AssertionError | ValueError.

(** Straight-line code that may raise. *)
Definition exc (A : Type) : Type := (pyexc + A)%type.

Definition exc_bind {A B} (x : exc A) (k : A -> exc B) : exc B :=
  match x with
  | inl e => inl e
  | inr a => k a
  end.

Notation "'let?' x ':=' e 'in' k" := (exc_bind e (fun x => k))
  (at level 10, x name, e at level 100, k at level 200).

(** [bool(v)]: what [if not v] tests. *)
Definition truthy (v : json) : bool :=
  match v with
  | JNull => false
  | JBool b => b
  | JInt z => negb (z =? 0)%Z
  | JStr s => negb (s =? "")
  | JList l => match l with [] => false | _ => true end
  | JObj m => match m with [] => false | _ => true end
  end.

(** [v == 'literal']. *)
Definition eq_str (v : json) (lit : string) : bool :=
  match v with
  | JStr s => s =? lit
  | _ => false
  end.

Fixpoint assoc (k : string) (m : list (string * json)) : option json :=
  match m with
  | [] => None
  | (k', v) :: m' => if k' =? k then Some v else assoc k m'
  end.

(** [d[k] = v] on a dict: replace in place, or append. *)
Fixpoint dict_set (k : string) (v : json) (m : list (string * json)) :=
  match m with
  | [] => [(k, v)]
  | (k', v') :: m' =>
      if k' =? k then (k, v) :: m' else (k', v') :: dict_set k v m'
  end.

(** [d.update(q)]. *)
Definition dict_update (d q : list (string * json)) :=
  fold_left (fun acc kv => dict_set (fst kv) (snd kv) acc) q d.

(** [v.get(k, default)]: only a dict has the method. *)
Definition get_default (v : json) (k : string) (default : json) : exc json :=
  match v with
  | JObj m => inr (match assoc k m with Some x => x | None => default end)
  | _ => inl AttributeError
  end.

(** [v.get(k)]. *)
Definition get (v : json) (k : string) : exc json := get_default v k JNull.

(** [v[k]] with a string key. *)
Definition subscript (v : json) (k : string) : exc json :=
  match v with
  | JObj m => match assoc k m with Some x => inr x | None => inl KeyError end
  | _ => inl TypeError
  end.

(** [isinstance(v, t)] for the three types [try_get] is asked about. *)
Inductive pytype := TStr | TList | TBool.

Definition isinstance (v : json) (t : pytype) : bool :=
  match t, v with
  | TStr, JStr _ => true
  | TList, JList _ => true
  | TBool, JBool _ => true
  | _, _ => false
  end.

(** [for x in v]: the elements of a list, the characters of a string, the
    keys of a dict. *)
Fixpoint chars (s : string) : list json :=
  match s with
  | EmptyString => []
  | String c s' => JStr (String c "") :: chars s'
  end.

Definition iterate (v : json) : exc (list json) :=
  match v with
  | JList l => inr l
  | JStr s => inr (chars s)
  | JObj m => inr (map (fun kv => JStr (fst kv)) m)
  | _ => inl TypeError
  end.

(** [a or b]. *)
Definition or_else (a b : json) : json := if truthy a then a else b.

(** *** [str] and [repr] *)

Definition string_of_Z (z : Z) : string :=
  NilZero.string_of_int (Z.to_int z).

Definition hex_digit (n : nat) : ascii :=
  ascii_of_nat (if (n <? 10)%nat then 48 + n else 87 + n).

Fixpoint contains (c : ascii) (s : string) : bool :=
  match s with
  | EmptyString => false
  | String c' s' => Ascii.eqb c c' || contains c s'
  end.

Definition squote : ascii := ascii_of_nat 39.
Definition dquote : ascii := ascii_of_nat 34.
Definition bslash : ascii := ascii_of_nat 92.

Definition repr_char (q c : ascii) : string :=
  let n := nat_of_ascii c in
  if Ascii.eqb c q || Ascii.eqb c bslash then String bslash (String c "")
  else if (n =? 9)%nat then String bslash "t"
  else if (n =? 10)%nat then String bslash "n"
  else if (n =? 13)%nat then String bslash "r"
  else if (n <? 32)%nat || ((127 <=? n)%nat && (n <=? 160)%nat) || (n =? 173)%nat then
    String bslash (String "x" (String (hex_digit (n / 16))
                                 (String (hex_digit (n mod 16)) "")))
  else String c "".

Fixpoint repr_body (q : ascii) (s : string) : string :=
  match s with
  | EmptyString => ""
  | String c s' => repr_char q c ++ repr_body q s'
  end.

(** [repr] of a string: single quotes unless the text has a single quote
    and no double quote; the code points that do not print (the controls
    below 32 and from 127 to 159, the no-break space 160 and the soft
    hyphen 173) are escaped. *)
Definition repr_str (s : string) : string :=
  let q := if contains squote s && negb (contains dquote s)
           then dquote else squote in
  String q (repr_body q s ++ String q "").

Fixpoint join (sep : string) (l : list string) : string :=
  match l with
  | [] => ""
  | [x] => x
  | x :: l' => x ++ sep ++ join sep l'
  end.

Fixpoint repr (v : json) : string :=
  match v with
  | JNull => "None"
  | JBool true => "True"
  | JBool false => "False"
  | JInt z => string_of_Z z
  | JStr s => repr_str s
  | JList l => "[" ++ join ", " (map repr l) ++ "]"
  | JObj m =>
      "{" ++ join ", " (map (fun kv => repr_str (fst kv) ++ ": " ++ repr (snd kv)) m)
          ++ "}"
  end.

(** [compat_str(v)], that is [str(v)]: a string is itself, anything else
    its [repr]. *)
Definition compat_str (v : json) : string :=
  match v with
  | JStr s => s
  | _ => repr v
  end.

(** ['...%s...' % arg] for a template holding one [%s]. *)
Fixpoint fmt_s (template arg : string) : string :=
  match template with
  | String "%" (String "s" rest) => arg ++ rest
  | String c rest => String c (fmt_s rest arg)
  | EmptyString => ""
  end.

(** [s.split(sep)[-1]] and [s.split(sep)[0]] for a one-character [sep]. *)
Fixpoint split_last (sep : ascii) (s : string) : string :=
  match s with
  | EmptyString => ""
  | String c s' =>
      if Ascii.eqb c sep then split_last sep s'
      else if contains sep s' then split_last sep s'
      else s
  end.

Fixpoint split_first (sep : ascii) (s : string) : string :=
  match s with
  | EmptyString => ""
  | String c s' => if Ascii.eqb c sep then "" else String c (split_first sep s')
  end.

End Py.

(** ** Regular expressions

    The patterns of the extractors, as syntax trees, and the backtracking
    matcher of [re]: alternatives are tried left to right, [?], [*] and [+]
    are greedy and give back on failure.  Repetition is over character
    classes, the only form the extractors use.  The class [\s] of a [str]
    pattern is the white space of Unicode; below 256 that is 9 to 13, 28
    to 32, 133 (next line) and 160 (no-break space). *)

Module Re.

Inductive cclass :=
| CChar (c : ascii)                (* a single character *)
| CRange (lo hi : ascii)           (* [lo-hi] *)
| CUnion (a b : cclass)            (* [ab] *)
| CNot (a : cclass)                (* [^a] *)
| CSpace.                          (* \s *)

Fixpoint in_class (cl : cclass) (c : ascii) : bool :=
  match cl with
  | CChar c' => Ascii.eqb c c'
  | CRange lo hi =>
      (nat_of_ascii lo <=? nat_of_ascii c)%nat && (nat_of_ascii c <=? nat_of_ascii hi)%nat
  | CUnion a b => in_class a c || in_class b c
  | CNot a => negb (in_class a c)
  | CSpace =>
      let n := nat_of_ascii c in
      ((9 <=? n)%nat && (n <=? 13)%nat) || ((28 <=? n)%nat && (n <=? 32)%nat)
      || (n =? 133)%nat || (n =? 160)%nat
  end.

Inductive regex :=
| Lit (p : string)                 (* literal text *)
| Cat (r1 r2 : regex)              (* r1 r2 *)
| Alt (r1 r2 : regex)              (* r1|r2 *)
| Opt (r : regex)                  (* r? *)
| Star (cl : cclass)               (* cl* *)
| Plus (cl : cclass)               (* cl+ *)
| Group (name : string) (r : regex).   (* (?P<name>r), or (r) numbered *)

(** The groups that took part in a match, latest first. *)
Definition captures := list (string * string).

Fixpoint group (g : captures) (name : string) : option string :=
  match g with
  | [] => None
  | (n, m) :: g' => if n =? name then Some m else group g' name
  end.

Fixpoint strip_prefix (p s : string) : option string :=
  match p, s with
  | EmptyString, _ => Some s
  | String a p', String b s' => if Ascii.eqb a b then strip_prefix p' s' else None
  | String _ _, EmptyString => None
  end.

Section Matcher.

Context {A : Type}.

(** [cl*] at the head of [s]: take as many characters as the class
    allows, then hand the text taken and the rest to [k]; when [k]
    refuses, give the last character back. *)
Fixpoint star_k (cl : cclass) (s : string) (k : string -> string -> option A)
  : option A :=
  match s with
  | String c s' =>
      if in_class cl c then
        match star_k cl s' (fun m rest => k (String c m) rest) with
        | Some a => Some a
        | None => k "" s
        end
      else k "" s
  | EmptyString => k "" s
  end.

Definition plus_k (cl : cclass) (s : string) (k : string -> string -> option A)
  : option A :=
  match s with
  | String c s' =>
      if in_class cl c then star_k cl s' (fun m rest => k (String c m) rest)
      else None
  | EmptyString => None
  end.

(** [rmatch r s g k]: match [r] at the head of [s]; [k] receives the
    text matched, the rest of the subject and the groups so far. *)
Fixpoint rmatch (r : regex) (s : string) (g : captures)
         (k : string -> string -> captures -> option A) : option A :=
  match r with
  | Lit p =>
      match strip_prefix p s with
      | Some rest => k p rest g
      | None => None
      end
  | Cat r1 r2 =>
      rmatch r1 s g (fun m1 s1 g1 =>
        rmatch r2 s1 g1 (fun m2 s2 g2 => k (m1 ++ m2) s2 g2))
  | Alt r1 r2 =>
      match rmatch r1 s g k with
      | Some a => Some a
      | None => rmatch r2 s g k
      end
  | Opt r1 =>
      match rmatch r1 s g k with
      | Some a => Some a
      | None => k "" s g
      end
  | Star cl => star_k cl s (fun m rest => k m rest g)
  | Plus cl => plus_k cl s (fun m rest => k m rest g)
  | Group name r1 =>
      rmatch r1 s g (fun m rest g1 => k m rest ((name, m) :: g1))
  end.

End Matcher.

(** [re.match(r, s)]: anchored at the start, free at the end. *)
Definition re_match (r : regex) (s : string) : option captures :=
  rmatch r s [] (fun _ _ g => Some g).

(** [re.search(r, s)]: the first offset at which [r] matches. *)
Fixpoint re_search (r : regex) (s : string) : option captures :=
  match re_match r s with
  | Some g => Some g
  | None =>
      match s with
      | String _ s' => re_search r s'
      | EmptyString => None
      end
  end.

(** What a successful match means, without the search order: [Matches r m
    g g'] when [r] matches exactly the text [m] and turns the groups [g]
    into [g']. *)
Fixpoint all_in (cl : cclass) (m : string) : bool :=
  match m with
  | EmptyString => true
  | String c m' => in_class cl c && all_in cl m'
  end.

Inductive Matches : regex -> string -> captures -> captures -> Prop :=
| MLit p g : Matches (Lit p) p g g
| MCat r1 r2 m1 m2 g g1 g2 :
    Matches r1 m1 g g1 -> Matches r2 m2 g1 g2 ->
    Matches (Cat r1 r2) (m1 ++ m2) g g2
| MAltL r1 r2 m g g' : Matches r1 m g g' -> Matches (Alt r1 r2) m g g'
| MAltR r1 r2 m g g' : Matches r2 m g g' -> Matches (Alt r1 r2) m g g'
| MOptSome r m g g' : Matches r m g g' -> Matches (Opt r) m g g'
| MOptNone r g : Matches (Opt r) "" g g
| MStar cl m g : all_in cl m = true -> Matches (Star cl) m g g
| MPlus cl m g : m <> "" -> all_in cl m = true -> Matches (Plus cl) m g g
| MGroup name r m g g' :
    Matches r m g g' -> Matches (Group name r) m g ((name, m) :: g').

(** Classes that several patterns share. *)
Definition digit : cclass := CRange "0" "9".
Definition upper : cclass := CRange "A" "Z".

Notation "r1 >> r2" := (Cat r1 r2) (at level 60, right associativity).

End Re.

(** ** The host framework

    [InfoExtractor], the downloader and the helpers of [..utils] are the
    extractor's collaborators.  What they own (the network, the stream
    manifests, the clock) is a capability the extractor is given; every
    use of the network or the screen is observed in a trace. *)

Module Host.
Import Py.

(** [e.cause] of an [ExtractorError]. *)
Inductive cause :=
| NoCause
| HTTPError (code : Z) (body : string)     (* compat_HTTPError *)
| OtherCause.

Inductive error :=
| ExtractorError (msg : string) (expected : bool) (c : cause)
| LoginRequired (msg : json)
| Raised (e : pyexc).

Definition header := (string * string)%type.

Inductive request :=
| RequestWebpage (url : string) (video_id : json) (note : string)
| DownloadWebpage (url : string) (video_id : json) (note : option string)
    (data : option (list (string * string))) (headers : list header)
| DownloadJson (url : string) (video_id : json) (note : string)
    (headers : list header) (query : list (string * json)).

Inductive event :=
| Sent (r : request)
| ToScreen (msg : string)
| ReportWarning (msg : string).

Definition trace := list event.

(** A computation of the extractor: it extends the trace and returns or
    raises. *)
Definition M (A : Type) : Type := trace -> (error + A) * trace.

Definition ret {A} (a : A) : M A := fun tr => (inr a, tr).

Definition bind {A B} (m : M A) (k : A -> M B) : M B :=
  fun tr =>
    match m tr with
    | (inl e, tr') => (inl e, tr')
    | (inr a, tr') => k a tr'
    end.

Definition raise {A} (e : error) : M A := fun tr => (inl e, tr).

Definition lift {A} (x : exc A) : M A :=
  match x with
  | inl e => raise (Raised e)
  | inr a => ret a
  end.

Definition emit (ev : event) : M unit := fun tr => (inr tt, (tr ++ [ev])%list).

(** [try: m except ... as e: handler e]. *)
Definition try_except {A} (m : M A) (handler : error -> M A) : M A :=
  fun tr =>
    match m tr with
    | (inl e, tr') => handler e tr'
    | (inr a, tr') => (inr a, tr')
    end.

Notation "x <- m ;; k" := (bind m (fun x => k))
  (at level 100, m at next level, right associativity).
Notation "m ;;; k" := (bind m (fun _ => k))
  (at level 100, right associativity).

(** The capabilities.  The network answers a request in view of what has
    been sent before (cookies, server state).  [unable_to_extract name] is
    the text of the warning that [name] was not found: the framework
    colours the name on a terminal and appends its plea to report the
    issue, both its own. *)
Class InfoExtractor := {
  page_of : trace -> request -> error + string;
  json_of : trace -> request -> error + json;
  json_loads : string -> option json;              (* json.loads *)
  _get_login_info : option string * option string;
  params : json;                                   (* self._downloader.params *)
  int_or_none : json -> json;
  merge_dicts : json -> json -> json;
  clean_html : string -> string;                   (* clean_html(s).strip() *)
  unable_to_extract : string -> string;
  _live_title : json -> json;
  _extract_video_info : string -> json -> json -> M json;     (* NaverBaseIE *)
  _extract_m3u8_formats : json -> string -> string -> M json
}.

Section Base.

Context `{InfoExtractor}.

Definition send_page (r : request) : M string :=
  fun tr => (page_of tr r, (tr ++ [Sent r])%list).

Definition _request_webpage (url : string) (video_id : json) (note : string)
  : M unit :=
  send_page (RequestWebpage url video_id note) ;;; ret tt.

Definition _download_webpage (url : string) (video_id : json)
           (note : option string) (data : option (list (string * string)))
           (headers : list header) : M string :=
  send_page (DownloadWebpage url video_id note data headers).

Definition _download_json (url : string) (video_id : json) (note : string)
           (headers : list header) (query : list (string * json)) : M json :=
  fun tr =>
    let r := DownloadJson url video_id note headers query in
    (json_of tr r, (tr ++ [Sent r])%list).

Definition to_screen (msg : string) : M unit := emit (ToScreen msg).

(** Modelled from the spec: [_parse_json] of the base class ([common.py]
    is not among the sources); a text that is not JSON is an
    [ExtractorError] whose cause is the parser's. *)
Definition _parse_json (json_string : json) (video_id : string) : M json :=
  match json_string with
  | JStr text =>
      match json_loads text with
      | Some v => ret v
      | None =>
          raise (ExtractorError (video_id ++ ": Failed to parse JSON ") false
                   OtherCause)
      end
  | _ => raise (Raised TypeError)
  end.

(** Modelled from the spec: [_html_search_regex] of the base class (not
    among the sources) with [fatal=False]: the cleaned first group of
    the first match, or a warning and [None]. *)
Definition _html_search_regex (pattern : Re.regex) (text name : string)
  : M json :=
  match Re.re_search pattern text with
  | Some g =>
      match Re.group g "1" with
      | Some m => ret (if m =? "" then JStr m else JStr (clean_html m))
      | None => ret JNull
      end
  | None => emit (ReportWarning (unable_to_extract name)) ;;; ret JNull
  end.

(** Modelled from the spec: [raise_login_required] of the base class
    ([common.py] is not among the sources): the distinct
    authentication-required error, carrying the message it is given. *)
Definition raise_login_required {A} (msg : json) : M A :=
  raise (LoginRequired msg).

End Base.

(** Modelled from the spec: [try_get] of [..utils] (not among the
    sources): apply the getter; a lookup that fails, or a value of
    another type than expected, gives [None]. *)
Definition try_get (src : json) (getter : json -> exc json) (expected : pytype)
  : exc json :=
  match getter src with
  | inr v => inr (if isinstance v expected then v else JNull)
  | inl AttributeError | inl KeyError | inl TypeError | inl IndexError => inr JNull
  | inl e => inl e
  end.

(** Modelled from the spec: [url_result] of the base class (not among the
    sources): a reference to a page that another extractor resolves. *)
Definition url_result (url : string) (ie : string) (video_id : json) : json :=
  let video_info := [("_type", JStr "url"); ("url", JStr url); ("ie_key", JStr ie)] in
  JObj (match video_id with
        | JNull => video_info
        | _ => dict_set "id" video_id video_info
        end).

(** Modelled from the spec: [playlist_result] of the base class (not among
    the sources): the ordered entries with the listing's id and title. *)
Definition playlist_result (entries : list json) (playlist_id playlist_title : json)
  : json :=
  let video_info := [("_type", JStr "playlist"); ("entries", JList entries)] in
  let video_info :=
    if truthy playlist_id then dict_set "id" playlist_id video_info else video_info in
  let video_info :=
    if truthy playlist_title then dict_set "title" playlist_title video_info
    else video_info in
  JObj video_info.

(** Modelled from the spec: [_match_id] of the base class (not among the
    sources): the group [id] of the extractor's [_VALID_URL], matched at
    the start of the URL; the match is asserted. *)
Definition _match_id (valid_url : Re.regex) (url : string) : exc string :=
  match Re.re_match valid_url url with
  | Some g =>
      match Re.group g "id" with
      | Some m => inr m
      | None => inl IndexError
      end
  | None => inl AssertionError
  end.

(** Modelled from the spec: [_search_regex] of the base class (not among
    the sources) with [default=None]: the first group of the first match
    in the text, or [None]. *)
Definition _search_regex (pattern : Re.regex) (text : string) : json :=
  match Re.re_search pattern text with
  | Some g =>
      match Re.group g "1" with
      | Some m => JStr m
      | None => JNull
      end
  | None => JNull
  end.

End Host.

(** ** The extractors *)

Module VLiveBaseIE.
Definition _APP_ID : string := "8c6cc7b45d2568fb668be6e05b6e5a3b".
End VLiveBaseIE.

Module VLiveIE.
Import Py Re Host.

Definition ie_key : string := "VLive".

(** [https?://(?:(?:www|m)\.)?vlive\.tv/(?:video|embed)/(?P<id>[0-9]+)] *)
Definition _VALID_URL : regex :=
  Lit "http" >> Opt (Lit "s") >> Lit "://" >>
  Opt ((Alt (Lit "www") (Lit "m")) >> Lit ".") >>
  Lit "vlive.tv/" >> Alt (Lit "video") (Lit "embed") >> Lit "/" >>
  Group "id" (Plus digit).

Definition LOGIN_URL : string := "https://www.vlive.tv/auth/email/login".

Section Methods.

Context `{InfoExtractor}.

Definition is_logged_in : M json :=
  login_info <- _download_json "https://www.vlive.tv/auth/loginInfo" JNull
                  "Downloading login info"
                  [("Referer", "https://www.vlive.tv/home")] [] ;;
  v <- lift (try_get login_info
               (fun x => let? m := subscript x "message" in subscript m "login")
               TBool) ;;
  ret (or_else v (JBool false)).

Definition _login : M unit :=
  match _get_login_info with
  | (Some email, Some password) =>
      _request_webpage LOGIN_URL JNull "Downloading login cookies" ;;;
      _download_webpage LOGIN_URL JNull (Some "Logging in")
        (Some [("email", email); ("pwd", password)])
        [("Referer", LOGIN_URL);
         ("Content-Type", "application/x-www-form-urlencoded")] ;;;
      logged_in <- is_logged_in ;;
      if negb (truthy logged_in)
      then raise (ExtractorError "Unable to log in" true NoCause)
      else ret tt
  | _ => ret tt
  end.

Definition _real_initialize : M unit := _login.

Definition _call_api (path_template video_id : string) (fields : option string)
  : M json :=
  let query := [("appId", JStr VLiveBaseIE._APP_ID)] in
  let query :=
    match fields with
    | Some f => if negb (f =? "") then dict_set "fields" (JStr f) query else query
    | None => query
    end in
  _download_json
    ("https://www.vlive.tv/globalv-web/vam-web/" ++ fmt_s path_template video_id)
    (JStr video_id)
    ("Downloading " ++ split_first "-" (split_last "/" path_template)
       ++ " JSON metadata")
    [("Referer", "https://www.vlive.tv/")] query.

Definition get_common_fields (post video : json) : exc json :=
  let? channel0 := get post "channel" in
  let channel := or_else channel0 (JObj []) in
  let? title := get video "title" in
  let? author := get_default post "author" (JObj []) in
  let? creator := get author "nickname" in
  let? channel_name := get channel "channelName" in
  let? channel_id := get channel "channelCode" in
  let? play_time := get video "playTime" in
  let? play_count := get video "playCount" in
  let? like_count := get video "likeCount" in
  let? comment_count := get video "commentCount" in
  inr (JObj [("title", title);
             ("creator", creator);
             ("channel", channel_name);
             ("channel_id", channel_id);
             ("duration", int_or_none play_time);
             ("view_count", int_or_none play_count);
             ("like_count", int_or_none like_count);
             ("comment_count", int_or_none comment_count)]).

(** ['Unknown status ' + status] *)
Definition unknown_status (status : json) : M json :=
  match status with
  | JStr s => raise (ExtractorError ("Unknown status " ++ s) false NoCause)
  | _ => raise (Raised TypeError)
  end.

(** The body of [_real_extract] below the metadata call. *)
Definition dispatch (video_id : string) (post : json) : M json :=
  video <- lift (subscript post "officialVideo") ;;
  video_type <- lift (get video "type") ;;
  if eq_str video_type "VOD" then
    r <- _call_api "video/v1.0/vod/%s/inkey" video_id None ;;
    inkey <- lift (subscript r "inkey") ;;
    vod_id <- lift (subscript video "vodId") ;;
    common <- lift (get_common_fields post video) ;;
    info <- _extract_video_info video_id vod_id inkey ;;
    ret (merge_dicts common info)
  else if eq_str video_type "LIVE" then
    status <- lift (get video "status") ;;
    if eq_str status "ON_AIR" then
      r <- _call_api "old/v3/live/%s/playInfo" video_id None ;;
      stream_url <- lift (let? res := subscript r "result" in
                          subscript res "adaptiveStreamUrl") ;;
      formats <- _extract_m3u8_formats stream_url video_id "mp4" ;;
      info <- lift (get_common_fields post video) ;;
      title <- lift (subscript video "title") ;;
      match info with
      | JObj d =>
          ret (JObj (dict_update d [("title", _live_title title);
                                    ("id", JStr video_id);
                                    ("formats", formats);
                                    ("is_live", JBool true)]))
      | _ => raise (Raised AttributeError)
      end
    else if eq_str status "ENDED" then
      raise (ExtractorError "Uploading for replay. Please wait..." true NoCause)
    else if eq_str status "RESERVED" then
      raise (ExtractorError "Coming soon!" true NoCause)
    else
      expose <- lift (get video "exposeStatus") ;;
      if eq_str expose "CANCEL" then
        raise (ExtractorError
                 "We are sorry, but the live broadcast has been canceled." true
                 NoCause)
      else unknown_status status
  else ret JNull.

(** The handler of the metadata call: a 403 becomes the login-required
    error with the upstream message; anything else is raised again. *)
Definition on_metadata_error (e : error) : M json :=
  match e with
  | ExtractorError _ _ (HTTPError code body) =>
      if (code =? 403)%Z then
        match json_loads body with
        | Some v =>
            message <- lift (subscript v "message") ;;
            raise_login_required message
        | None => raise (Raised ValueError)
        end
      else raise e
  | _ => raise e
  end.

(** The metadata call, as [_real_extract] makes it. *)
Definition call_post (video_id : string) : M json :=
  _call_api "post/v1.0/officialVideoPost-%s" video_id
    (Some "author{nickname},channel{channelCode,channelName},officialVideo{commentCount,exposeStatus,likeCount,playCount,playTime,status,title,type,vodId}").

Definition _real_extract (url : string) : M json :=
  video_id <- lift (_match_id _VALID_URL url) ;;
  post <- try_except (call_post video_id) on_metadata_error ;;
  dispatch video_id post.

End Methods.
End VLiveIE.

Module VLiveChannelIE.
Import Py Re Host.

(** [https?://(?:channels\.vlive\.tv|(?:(?:www|m)\.)?vlive\.tv/channel)/(?P<id>[0-9A-Z]+)] *)
Definition _VALID_URL : regex :=
  Lit "http" >> Opt (Lit "s") >> Lit "://" >>
  Alt (Lit "channels.vlive.tv")
      (Opt ((Alt (Lit "www") (Lit "m")) >> Lit ".") >> Lit "vlive.tv/channel") >>
  Lit "/" >> Group "id" (Plus (CUnion digit upper)).

Section Methods.

Context `{InfoExtractor}.

Definition _call_api (path channel_key_suffix : string) (channel_value : json)
           (note : string) (query : list (string * json)) : M json :=
  let q := dict_set ("channel" ++ channel_key_suffix) channel_value
             [("app_id", JStr VLiveBaseIE._APP_ID)] in
  let q := dict_update q query in
  r <- _download_json ("http://api.vfan.vlive.tv/vproxy/channelplus/" ++ path)
         channel_value ("Downloading " ++ note) [] q ;;
  lift (subscript r "result").

(** The body of [for video in videos]. *)
Fixpoint add_entries (videos entries : list json) : exc (list json) :=
  match videos with
  | [] => inr entries
  | video :: videos' =>
      let? video_id := get video "videoSeq" in
      if negb (truthy video_id) then add_entries videos' entries
      else
        let video_id := compat_str video_id in
        add_entries videos'
          (entries ++ [url_result ("http://www.vlive.tv/video/" ++ video_id)
                         VLiveIE.ie_key (JStr video_id)])%list
  end.

(** The listing call for page [page_num]. *)
Definition list_page (channel_seq : json) (page_num : Z) : M json :=
  _call_api "getChannelVideoList" "Seq" channel_seq
    ("channel list page #" ++ string_of_Z page_num)
    [("maxNumOfRows", JInt 100); ("pageNo", JInt page_num)].

(** [for page_num in itertools.count(1)], from [page_num] on.  The loop
    has no bound of its own; [None] is a run that is still going when
    [fuel] pages have been asked for. *)
Fixpoint page_loop (fuel : nat) (channel_seq : json) (page_num : Z)
         (channel_name : json) (entries : list json)
  : M (option (json * list json)) :=
  match fuel with
  | O => ret None
  | S fuel' =>
      video_list <- list_page channel_seq page_num ;;
      channel_name <-
        (if negb (truthy channel_name) then
           lift (try_get video_list
                   (fun x => let? info := subscript x "channelInfo" in
                             subscript info "channelName")
                   TStr)
         else ret channel_name) ;;
      videos <- lift (try_get video_list (fun x => subscript x "videoList") TList) ;;
      if negb (truthy videos) then ret (Some (channel_name, entries))
      else
        items <- lift (iterate videos) ;;
        entries <- lift (add_entries items entries) ;;
        page_loop fuel' channel_seq (page_num + 1) channel_name entries
  end.

Definition _real_extract (fuel : nat) (url : string) : M (option json) :=
  channel_code <- lift (_match_id _VALID_URL url) ;;
  r <- _call_api "decodeChannelCode" "Code" (JStr channel_code)
         "decode channel code" [] ;;
  channel_seq <- lift (subscript r "channelSeq") ;;
  done <- page_loop fuel channel_seq 1 JNull [] ;;
  match done with
  | Some (channel_name, entries) =>
      ret (Some (playlist_result entries (JStr channel_code) channel_name))
  | None => ret None
  end.

End Methods.
End VLiveChannelIE.

Module VLivePlaylistIE.
Import Py Re Host.

(** [https?://(?:(?:www|m)\.)?vlive\.tv/video/(?P<video_id>[0-9]+)/playlist/(?P<id>[0-9]+)] *)
Definition _VALID_URL : regex :=
  Lit "http" >> Opt (Lit "s") >> Lit "://" >>
  Opt ((Alt (Lit "www") (Lit "m")) >> Lit ".") >>
  Lit "vlive.tv/video/" >> Group "video_id" (Plus digit) >>
  Lit "/playlist/" >> Group "id" (Plus digit).

Definition _VIDEO_URL_TEMPLATE : string := "http://www.vlive.tv/video/%s".

(** [playlistVideoSeqs\s*=\s*(\[[^]]+\])] *)
Definition playlist_seqs_re : regex :=
  Lit "playlistVideoSeqs" >> Star CSpace >> Lit "=" >> Star CSpace >>
  Group "1" (Lit "[" >> Plus (CNot (CChar "]")) >> Lit "]").

(** The pattern of the playlist title: a [div] whose class names
    [multicam_playlist], then the text of the [h3] that follows. *)
Definition playlist_title_re : regex :=
  Lit "<div" >> Plus (CNot (CChar ">")) >>
  Lit ("class=" ++ String dquote "") >> Star (CNot (CChar dquote)) >>
  Lit "multicam_playlist" >> Star (CNot (CChar ">")) >> Lit ">" >>
  Star CSpace >> Lit "<h3" >> Plus (CNot (CChar ">")) >> Lit ">" >>
  Group "1" (Plus (CNot (CChar "<"))).

Section Methods.

Context `{InfoExtractor}.

Definition _build_video_result (video_id message : string) : M json :=
  to_screen message ;;;
  ret (url_result (fmt_s _VIDEO_URL_TEMPLATE video_id) VLiveIE.ie_key
         (JStr video_id)).

(** The list comprehension over [item_ids]. *)
Definition entries_of (item_ids : list json) : list json :=
  map (fun item_id =>
         url_result (fmt_s _VIDEO_URL_TEMPLATE (compat_str item_id))
           VLiveIE.ie_key (JStr (compat_str item_id)))
      item_ids.

(** [mobj.group('video_id', 'id')] of [re.match(_VALID_URL, url)]. *)
Definition match_groups (url : string) : exc (string * string) :=
  match re_match _VALID_URL url with
  | Some g =>
      match group g "video_id", group g "id" with
      | Some video_id, Some playlist_id => inr (video_id, playlist_id)
      | _, _ => inl IndexError
      end
  | None => inl AttributeError
  end.

Definition _real_extract (url : string) : M json :=
  ids <- lift (match_groups url) ;;
  let '(video_id, playlist_id) := ids in
  noplaylist <- lift (get params "noplaylist") ;;
  if truthy noplaylist then
    _build_video_result video_id
      ("Downloading just video " ++ video_id ++ " because of --no-playlist")
  else
    to_screen ("Downloading playlist " ++ playlist_id
                 ++ " - add --no-playlist to just download video") ;;;
    webpage <- _download_webpage
                 ("http://www.vlive.tv/video/" ++ video_id ++ "/playlist/"
                    ++ playlist_id)
                 (JStr playlist_id) None None [] ;;
    let raw_item_ids := _search_regex playlist_seqs_re webpage in
    if negb (truthy raw_item_ids) then
      _build_video_result video_id
        ("Downloading just video " ++ video_id
           ++ " because no playlist was found")
    else
      item_ids <- _parse_json raw_item_ids playlist_id ;;
      items <- lift (iterate item_ids) ;;
      let entries := entries_of items in
      playlist_name <- _html_search_regex playlist_title_re webpage
                         "playlist title" ;;
      ret (playlist_result entries (JStr playlist_id) playlist_name).

End Methods.
End VLivePlaylistIE.

(** ** The vocabulary of the properties *)

Module Props.
Import Py Re Host.

(** A non-empty string of decimal digits. *)
Definition numeric (s : string) : Prop := s <> "" /\ all_in digit s = true.

(** A non-empty string of digits and upper-case letters. *)
Definition alphanumeric (s : string) : Prop :=
  s <> "" /\ all_in (CUnion digit upper) s = true.

Definition starts_in (cl : cclass) (s : string) : bool :=
  match s with
  | String c _ => in_class cl c
  | EmptyString => false
  end.

Definition is_obj (v : json) : bool :=
  match v with
  | JObj _ => true
  | _ => false
  end.

(** The reference to the single video [video_id]. *)
Definition video_ref (video_id : string) : json :=
  url_result ("http://www.vlive.tv/video/" ++ video_id) VLiveIE.ie_key (JStr video_id).

(** The identifiers a page of the listing carries, in the page's order:
    the text of every [videoSeq] that is there and truthy. *)
Fixpoint video_ids (videos : list json) : list string :=
  match videos with
  | [] => []
  | video :: videos' =>
      match get video "videoSeq" with
      | inr v => if truthy v then compat_str v :: video_ids videos' else video_ids videos'
      | inl _ => video_ids videos'
      end
  end.

(** An upstream item whose [videoSeq], if any, is a natural number or a
    string of digits. *)
Definition numeric_seq (v : json) : bool :=
  match v with
  | JNull => true
  | JInt z => (0 <=? z)%Z
  | JStr s => all_in digit s
  | _ => false
  end.

Definition numeric_item (video : json) : bool :=
  match get video "videoSeq" with
  | inr v => numeric_seq v
  | inl _ => false
  end.

(** An embedded playlist item that is a natural number or a non-empty
    string of digits. *)
Definition numeric_member (v : json) : bool :=
  match v with
  | JInt z => (0 <=? z)%Z
  | JStr s => negb (s =? "") && all_in digit s
  | _ => false
  end.

(** The identifier of a reference. *)
Definition id_of (entry : json) : json :=
  match get entry "id" with
  | inr v => v
  | inl _ => JNull
  end.

(** The request for page [page_num] of the listing of [channel_seq]. *)
Definition page_request (channel_seq : json) (page_num : Z) : request :=
  DownloadJson "http://api.vfan.vlive.tv/vproxy/channelplus/getChannelVideoList"
    channel_seq ("Downloading channel list page #" ++ string_of_Z page_num) []
    [("app_id", JStr VLiveBaseIE._APP_ID); ("channelSeq", channel_seq);
     ("maxNumOfRows", JInt 100); ("pageNo", JInt page_num)].

(** The query parameter [key] of a JSON request. *)
Definition query_of (r : request) (key : string) : json :=
  match r with
  | DownloadJson _ _ _ _ q => match assoc key q with Some v => v | None => JNull end
  | _ => JNull
  end.

(** The requests for [n] consecutive pages from [page_num] on. *)
Fixpoint asked (channel_seq : json) (page_num : Z) (n : nat) : trace :=
  match n with
  | O => []
  | S n' => Sent (page_request channel_seq page_num) :: asked channel_seq (page_num + 1) n'
  end.

(** The video list of a page, as the loop reads it. *)
Definition videos_of (video_list : json) : exc json :=
  try_get video_list (fun x => subscript x "videoList") TList.

(** The identifiers of the entries of a playlist result. *)
Definition entry_ids (result : json) : list json :=
  match subscript result "entries" with
  | inr (JList entries) => map id_of entries
  | _ => []
  end.

(** What a playlist extraction that goes to the network says and asks. *)
Definition playlist_notice (playlist_id : string) : string :=
  "Downloading playlist " ++ playlist_id
    ++ " - add --no-playlist to just download video".

Definition playlist_page_request (video_id playlist_id : string) : request :=
  DownloadWebpage
    ("http://www.vlive.tv/video/" ++ video_id ++ "/playlist/" ++ playlist_id)
    (JStr playlist_id) None None [].

(** The three requests of a login, in the order of the protocol: the
    login page, the credential form, the session info. *)
Definition login_page_request : request :=
  RequestWebpage VLiveIE.LOGIN_URL JNull "Downloading login cookies".

Definition login_form_request (email password : string) : request :=
  DownloadWebpage VLiveIE.LOGIN_URL JNull (Some "Logging in")
    (Some [("email", email); ("pwd", password)])
    [("Referer", VLiveIE.LOGIN_URL);
     ("Content-Type", "application/x-www-form-urlencoded")].

Definition login_info_request : request :=
  DownloadJson "https://www.vlive.tv/auth/loginInfo" JNull "Downloading login info"
    [("Referer", "https://www.vlive.tv/home")] [].

(** The flag of the session-info endpoint: [login_info['message']['login']]
    is the boolean [True]. *)
Definition login_flag (login_info : json) : bool :=
  match (let? m := subscript login_info "message" in subscript m "login") with
  | inr (JBool true) => true
  | _ => false
  end.

(** The page holds an identifier list that the extractor can see: the
    word [playlistVideoSeqs], the sign [=] with any white space around
    it, and a bracketed text with at least one character, none of them a
    closing bracket, between the brackets. *)
Definition has_seqs (webpage : string) : Prop :=
  exists before ws1 ws2 body rest,
    webpage = before ++ "playlistVideoSeqs" ++ ws1 ++ "=" ++ ws2
                ++ "[" ++ body ++ "]" ++ rest
    /\ all_in CSpace ws1 = true /\ all_in CSpace ws2 = true
    /\ body <> "" /\ all_in (CNot (CChar "]")) body = true.

(** The page has the title [text] after [before]: a [div] tag whose
    [class] attribute names [multicam_playlist], white space, an [h3] tag
    and then the text, which has no [<]; [rest] is what follows. *)
Definition titled (webpage before text rest : string) : Prop :=
  exists a b c ws d,
    webpage = before ++ "<div" ++ a ++ ("class=" ++ String dquote "") ++ b
                ++ "multicam_playlist" ++ c ++ ">" ++ ws ++ "<h3" ++ d ++ ">"
                ++ text ++ rest
    /\ a <> "" /\ all_in (CNot (CChar ">")) a = true
    /\ all_in (CNot (CChar dquote)) b = true
    /\ all_in (CNot (CChar ">")) c = true
    /\ all_in CSpace ws = true
    /\ d <> "" /\ all_in (CNot (CChar ">")) d = true
    /\ text <> "" /\ all_in (CNot (CChar "<")) text = true.

Section Upstream.

Context `{InfoExtractor}.

(** [Serves channel_seq p tr pages tr']: asked from trace [tr] for page
    [p] on, the upstream answers with the non-empty video lists [pages],
    one per request, and then with a page whose video list is empty or
    absent; [tr'] is the trace after that last answer. *)
Inductive Serves (channel_seq : json)
  : Z -> trace -> list (list json) -> trace -> Prop :=
| ServesLast p tr video_list tr' videos :
    VLiveChannelIE.list_page channel_seq p tr = (inr video_list, tr') ->
    videos_of video_list = inr videos ->
    truthy videos = false ->
    Serves channel_seq p tr [] tr'
| ServesMore p tr video_list tr' page pages tr'' :
    VLiveChannelIE.list_page channel_seq p tr = (inr video_list, tr') ->
    videos_of video_list = inr (JList page) ->
    page <> [] ->
    Serves channel_seq (p + 1) tr' pages tr'' ->
    Serves channel_seq p tr (page :: pages) tr''.

End Upstream.

End Props.

(** ** Sample hosts *)

Module Sample.
Import Py Re Host.

(** The body of a 403 answer: an object whose [message] is
    [Subscribers only]. *)
Definition subscribers_only : string :=
  "{" ++ String dquote ("message" ++ String dquote (": " ++ String dquote
    ("Subscribers only" ++ String dquote "}"))).

(** A host whose network answers every JSON request through [answer] and
    serves [webpage] as every page. *)
Definition host (answer : request -> error + json) (webpage : string)
           (options : json) (credentials : option string * option string)
  : InfoExtractor := {|
  page_of := fun _ _ => inr webpage;
  json_of := fun _ r => answer r;
  json_loads := fun text =>
    if text =? subscribers_only then Some (JObj [("message", JStr "Subscribers only")])
    else if text =? "[1, 2]" then Some (JList [JInt 1; JInt 2])
    else None;
  _get_login_info := credentials;
  params := options;
  int_or_none := fun v => match v with JInt _ => v | _ => JNull end;
  merge_dicts := fun a b => match a, b with
                            | JObj x, JObj y => JObj (dict_update y x)
                            | _, _ => a
                            end;
  clean_html := fun s => s;
  unable_to_extract := fun name => "unable to extract " ++ name;
  _live_title := fun v => v;
  _extract_video_info := fun _ _ _ => ret (JObj []);
  _extract_m3u8_formats := fun _ _ _ => ret (JList [])
|}.

(** A post of the given type, status and expose status. *)
Definition post (type status expose : string) : json :=
  JObj [("officialVideo",
         JObj [("type", JStr type); ("status", JStr status);
               ("exposeStatus", JStr expose); ("title", JStr "t")])].

Definition post_host (p : json) : InfoExtractor :=
  host (fun _ => inr p) "" (JObj []) (None, None).

(** The upstream refuses the metadata with [error]. *)
Definition refusing_host (e : error) : InfoExtractor :=
  host (fun _ => inl e) "" (JObj []) (None, None).

(** A session that the upstream reports as logged in, or not. *)
Definition login_host (credentials : option string * option string)
           (logged_in : bool) : InfoExtractor :=
  host (fun _ => inr (JObj [("message", JObj [("login", JBool logged_in)])]))
       "" (JObj []) credentials.

(** A playlist page, with or without the no-playlist option. *)
Definition playlist_host (webpage : string) (noplaylist : bool) : InfoExtractor :=
  host (fun _ => inr JNull) webpage (JObj [("noplaylist", JBool noplaylist)])
       (None, None).

(** A channel of two pages; the first holds a duplicate, a name that is
    no number and an item without identifier. *)
Definition item (v : json) : json := JObj [("videoSeq", v)].

Definition channel_pages : list json :=
  [JObj [("channelInfo", JObj [("channelName", JStr "N")]);
         ("videoList", JList [item (JInt 5); item (JStr "abc"); item (JInt 0);
                              JObj []; item (JInt 5)])];
   JObj [("videoList", JList [item (JInt 9)])];
   JObj [("videoList", JList [])]].

Definition channel_host : InfoExtractor :=
  host (fun r =>
          match Props.query_of r "pageNo" with
          | JInt n => inr (JObj [("result", nth (Z.to_nat n - 1) channel_pages JNull)])
          | _ => inr (JObj [("result", JObj [("channelSeq", JInt 7)])])
          end)
       "" (JObj []) (None, None).

End Sample.

(** ** Further vocabulary and samples *)

Module Props2.
Import Py Re Host Props.

(** The request that turns a channel code into a channel sequence. *)
Definition decode_request (channel_code : string) : request :=
  DownloadJson "http://api.vfan.vlive.tv/vproxy/channelplus/decodeChannelCode"
    (JStr channel_code) "Downloading decode channel code" []
    [("app_id", JStr VLiveBaseIE._APP_ID); ("channelCode", JStr channel_code)].

(** The channel name of a page, as the loop reads it. *)
Definition name_of (video_list : json) : exc json :=
  try_get video_list
    (fun x => let? info := subscript x "channelInfo" in subscript info "channelName")
    TStr.

(** A computation that only adds to the trace. *)
Definition extends {A} (m : M A) : Prop :=
  forall tr, exists rest, snd (m tr) = (tr ++ rest)%list.

(** The keys that the live branch sets on top of the common fields. *)
Definition live_keys : list string := ["title"; "id"; "formats"; "is_live"].

End Props2.

Module Sample2.
Import Py Re Host Props.

(** One answer for the three calls of a single video: the post, the
    access key and the play info. *)
Definition answer (type status : string) (author : json) : json :=
  JObj [("officialVideo",
         JObj [("type", JStr type); ("status", JStr status);
               ("title", JStr "t"); ("vodId", JStr "V1"); ("playCount", JInt 3)]);
        ("author", author);
        ("channel", JObj [("channelName", JStr "N"); ("channelCode", JStr "FCD4B")]);
        ("inkey", JStr "K1");
        ("result", JObj [("adaptiveStreamUrl", JStr "http://s/live.m3u8")])].

(** The same, the record without title. *)
Definition untitled : json :=
  JObj [("officialVideo", JObj [("type", JStr "LIVE"); ("status", JStr "ON_AIR")]);
        ("result", JObj [("adaptiveStreamUrl", JStr "http://s/live.m3u8")])].

(** An upstream whose every listing page holds one video. *)
Definition endless_host : InfoExtractor :=
  Sample.post_host
    (JObj [("result", JObj [("channelSeq", JInt 7);
                            ("videoList", JList [Sample.item (JInt 5)])])]).

(** A listing page with an item that is no object. *)
Definition broken_host : InfoExtractor :=
  Sample.post_host
    (JObj [("result", JObj [("channelSeq", JInt 7);
                            ("videoList", JList [Sample.item (JInt 5); JInt 6])])]).

(** A playlist page whose identifier list is empty and written with a
    blank between the brackets; the parser reads it as the empty list. *)
Definition blank_list_page : string := "var playlistVideoSeqs = [ ];".

Definition blank_list_host : InfoExtractor := {|
  page_of := fun _ _ => inr blank_list_page;
  json_of := fun _ _ => inr JNull;
  json_loads := fun text => if text =? "[ ]" then Some (JList []) else None;
  _get_login_info := (None, None);
  params := JObj [];
  int_or_none := fun v => v;
  merge_dicts := fun a _ => a;
  clean_html := fun s => s;
  unable_to_extract := fun name => "unable to extract " ++ name;
  _live_title := fun v => v;
  _extract_video_info := fun _ _ _ => ret (JObj []);
  _extract_m3u8_formats := fun _ _ _ => ret (JList [])
|}.

(** A network on which every request fails with [e]. *)
Definition offline_host (e : error) (credentials : option string * option string)
  : InfoExtractor := {|
  page_of := fun _ _ => inl e;
  json_of := fun _ _ => inl e;
  json_loads := fun _ => None;
  _get_login_info := credentials;
  params := JObj [];
  int_or_none := fun v => v;
  merge_dicts := fun a _ => a;
  clean_html := fun s => s;
  unable_to_extract := fun name => "unable to extract " ++ name;
  _live_title := fun v => v;
  _extract_video_info := fun _ _ _ => ret (JObj []);
  _extract_m3u8_formats := fun _ _ _ => ret (JList [])
|}.

End Sample2.

(** * Properties *)

(** ** Strings *)

Module StrFacts.

Lemma append_nil_r (s : string) : s ++ "" = s.
Proof. induction s as [|c s IH]; simpl; [reflexivity | now rewrite IH]. Qed.

Lemma append_assoc (a b c : string) : (a ++ b) ++ c = a ++ b ++ c.
Proof. induction a as [|x a IH]; simpl; [reflexivity | now rewrite IH]. Qed.

Lemma append_empty (a b : string) : a ++ b = "" -> a = "" /\ b = "".
Proof. destruct a; simpl; [auto | discriminate]. Qed.

End StrFacts.

(** ** The matcher *)

Module ReFacts.
Import Re StrFacts.

Lemma all_in_append cl (a b : string) :
  all_in cl (a ++ b) = all_in cl a && all_in cl b.
Proof.
  induction a as [|c a IH]; simpl; [reflexivity|].
  rewrite IH. now rewrite andb_assoc.
Qed.

Lemma strip_prefix_append (p rest : string) : strip_prefix p (p ++ rest) = Some rest.
Proof.
  induction p as [|c p IH]; simpl; [reflexivity|].
  now rewrite Ascii.eqb_refl.
Qed.

Lemma strip_prefix_sound (p s rest : string) :
  strip_prefix p s = Some rest -> s = p ++ rest.
Proof.
  revert s; induction p as [|c p IH]; intros s Hs; simpl in *.
  - congruence.
  - destruct s as [|d s]; [discriminate|].
    destruct (Ascii.eqb_spec c d) as [->|]; [|discriminate].
    now rewrite (IH _ Hs).
Qed.

Section Sound.

Context {A : Type}.

(** Whatever [cl*] hands to its continuation is a run of the class at
    the head of the subject. *)
Lemma star_k_sound cl (s : string) (k : string -> string -> option A) a :
  star_k cl s k = Some a ->
  exists m rest, s = m ++ rest /\ all_in cl m = true /\ k m rest = Some a.
Proof.
  revert k; induction s as [|c s IH]; intros k Hk; simpl in Hk.
  - exists "", ""; auto.
  - destruct (in_class cl c) eqn:Hc.
    + destruct (star_k cl s _) as [a'|] eqn:Hs.
      * inversion Hk; subst a'.
        apply IH in Hs as (m & rest & -> & Hm & Hr).
        exists (String c m), rest; simpl; rewrite Hc; auto.
      * exists "", (String c s); auto.
    + exists "", (String c s); auto.
Qed.

Lemma plus_k_sound cl (s : string) (k : string -> string -> option A) a :
  plus_k cl s k = Some a ->
  exists m rest,
    s = m ++ rest /\ m <> "" /\ all_in cl m = true /\ k m rest = Some a.
Proof.
  destruct s as [|c s]; simpl; [discriminate|].
  destruct (in_class cl c) eqn:Hc; [|discriminate].
  intros Hk. apply star_k_sound in Hk as (m & rest & -> & Hm & Hr).
  exists (String c m), rest; simpl; rewrite Hc.
  repeat split; auto; discriminate.
Qed.

(** Greedy repetition: when the whole run satisfies the continuation,
    that is the answer. *)
Lemma star_k_greedy cl (d rest : string) (k : string -> string -> option A) a :
  all_in cl d = true -> Props.starts_in cl rest = false ->
  k d rest = Some a -> star_k cl (d ++ rest) k = Some a.
Proof.
  revert k; induction d as [|c d IH]; intros k Hd Hrest Hk; simpl in *.
  - destruct rest as [|c rest]; simpl in *; [assumption|].
    now rewrite Hrest.
  - apply andb_prop in Hd as [Hc Hd]. rewrite Hc.
    now rewrite (IH (fun m r => k (String c m) r) Hd Hrest Hk).
Qed.

Lemma plus_k_greedy cl (d rest : string) (k : string -> string -> option A) a :
  d <> "" -> all_in cl d = true -> Props.starts_in cl rest = false ->
  k d rest = Some a -> plus_k cl (d ++ rest) k = Some a.
Proof.
  destruct d as [|c d]; [congruence|]; intros _ Hd Hrest Hk; simpl in *.
  apply andb_prop in Hd as [Hc Hd]. rewrite Hc.
  now apply star_k_greedy.
Qed.

End Sound.

(** The matcher only answers through a match in the declarative sense. *)
Lemma rmatch_sound {A} (r : regex) :
  forall (s : string) g (k : string -> string -> captures -> option A) a,
    rmatch r s g k = Some a ->
    exists m rest g',
      s = m ++ rest /\ Matches r m g g' /\ k m rest g' = Some a.
Proof.
  induction r as [p | r1 IH1 r2 IH2 | r1 IH1 r2 IH2 | r IH | cl | cl | name r IH];
    intros s g k a Hm; simpl in Hm.
  - destruct (strip_prefix p s) as [rest|] eqn:Hp; [|discriminate].
    apply strip_prefix_sound in Hp.
    exists p, rest, g; repeat split; auto; constructor.
  - apply IH1 in Hm as (m1 & s1 & g1 & -> & M1 & Hm).
    apply IH2 in Hm as (m2 & s2 & g2 & -> & M2 & Hm).
    exists (m1 ++ m2), s2, g2; repeat split; auto.
    + now rewrite append_assoc.
    + now constructor 2 with g1.
  - destruct (rmatch r1 s g k) as [a'|] eqn:H1.
    + inversion Hm; subst a'.
      apply IH1 in H1 as (m & rest & g' & -> & M & Hk).
      exists m, rest, g'; repeat split; auto. now apply MAltL.
    + apply IH2 in Hm as (m & rest & g' & -> & M & Hk).
      exists m, rest, g'; repeat split; auto. now apply MAltR.
  - destruct (rmatch r s g k) as [a'|] eqn:H1.
    + inversion Hm; subst a'.
      apply IH in H1 as (m & rest & g' & -> & M & Hk).
      exists m, rest, g'; repeat split; auto. now apply MOptSome.
    + exists "", s, g; repeat split; auto. apply MOptNone.
  - apply star_k_sound in Hm as (m & rest & -> & Hall & Hk).
    exists m, rest, g; repeat split; auto. now apply MStar.
  - apply plus_k_sound in Hm as (m & rest & -> & Hne & Hall & Hk).
    exists m, rest, g; repeat split; auto. now apply MPlus.
  - apply IH in Hm as (m & rest & g' & -> & M & Hk).
    exists m, rest, ((name, m) :: g'); repeat split; auto. now apply MGroup.
Qed.

Lemma re_match_sound (r : regex) (s : string) g :
  re_match r s = Some g -> exists m rest, s = m ++ rest /\ Matches r m [] g.
Proof.
  unfold re_match; intros Hm.
  apply rmatch_sound in Hm as (m & rest & g' & -> & M & Hk).
  inversion Hk; subst g'. now exists m, rest.
Qed.

(** *** The matcher misses nothing *)

Section Complete.

Context {A : Type}.

Lemma star_k_complete cl (m : string) :
  forall (rest : string) (k : string -> string -> option A),
    star_k cl (m ++ rest) k = None -> all_in cl m = true -> k m rest = None.
Proof.
  induction m as [|c m IH]; intros rest k Hk Hm; simpl in *.
  - destruct rest as [|c rest]; simpl in Hk; [assumption|].
    destruct (in_class cl c); [|assumption].
    destruct (star_k cl rest _); [discriminate | assumption].
  - apply andb_prop in Hm as [Hc Hm]. rewrite Hc in Hk.
    destruct (star_k cl (m ++ rest) (fun m0 r => k (String c m0) r)) eqn:E;
      [discriminate|].
    apply (IH rest _ E Hm).
Qed.

Lemma plus_k_complete cl (m rest : string) (k : string -> string -> option A) :
  plus_k cl (m ++ rest) k = None -> m <> "" -> all_in cl m = true ->
  k m rest = None.
Proof.
  destruct m as [|c m]; [congruence|]. intros Hk _ Hm. simpl in *.
  apply andb_prop in Hm as [Hc Hm]. rewrite Hc in Hk.
  apply (star_k_complete cl m rest _ Hk Hm).
Qed.

(** With a continuation that takes everything, [cl+] takes the whole run. *)
Lemma star_k_longest cl (f : string -> string -> A) :
  forall (s : string) (pre : string -> string) a,
    star_k cl s (fun m rest => Some (f (pre m) rest)) = Some a ->
    exists m rest,
      s = m ++ rest /\ all_in cl m = true /\ Props.starts_in cl rest = false
      /\ a = f (pre m) rest.
Proof.
  induction s as [|c s IH]; intros pre a Hs; simpl in Hs.
  - inversion Hs. exists "", "". auto.
  - destruct (in_class cl c) eqn:Hc.
    + destruct (star_k cl s (fun m rest => Some (f (pre (String c m)) rest)))
        as [a'|] eqn:E.
      * inversion Hs; subst a'.
        apply (IH (fun m => pre (String c m))) in E
          as (m & rest & -> & Hm & Hrest & ->).
        exists (String c m), rest. simpl. rewrite Hc. auto.
      * exfalso.
        assert (Hsome : forall t (q : string -> string),
                  star_k cl t (fun m rest => Some (f (q m) rest)) <> None).
        { clear. induction t as [|d t IHt]; intros q; simpl; [discriminate|].
          destruct (in_class cl d); [|discriminate].
          destruct (star_k cl t _); discriminate. }
        now apply (Hsome s (fun m => pre (String c m))).
    + inversion Hs. exists "", (String c s). simpl. rewrite Hc. auto.
Qed.

Lemma plus_k_longest cl (f : string -> string -> A) (s : string) a :
  plus_k cl s (fun m rest => Some (f m rest)) = Some a ->
  exists m rest,
    s = m ++ rest /\ m <> "" /\ all_in cl m = true
    /\ Props.starts_in cl rest = false /\ a = f m rest.
Proof.
  destruct s as [|c s]; simpl; [discriminate|].
  destruct (in_class cl c) eqn:Hc; [|discriminate]. intros Hs.
  apply (star_k_longest cl f s (fun m => String c m)) in Hs
    as (m & rest & -> & Hm & Hrest & ->).
  exists (String c m), rest. simpl. rewrite Hc.
  repeat split; auto. discriminate.
Qed.

End Complete.

(** Whatever matches in the declarative sense is offered to the
    continuation: the matcher fails only if the continuation refuses it. *)
Lemma rmatch_complete {A} (r : regex) (m : string) g g' :
  Matches r m g g' ->
  forall (rest : string) (k : string -> string -> captures -> option A),
    rmatch r (m ++ rest) g k = None -> k m rest g' = None.
Proof.
  induction 1 as [p g | r1 r2 m1 m2 g g1 g2 _ IH1 _ IH2
                 | r1 r2 m g g' _ IH | r1 r2 m g g' _ IH
                 | r m g g' _ IH | r g | cl m g Hm | cl m g Hne Hm
                 | name r m g g' _ IH];
    intros rest k Hk; simpl in Hk.
  - now rewrite strip_prefix_append in Hk.
  - rewrite append_assoc in Hk.
    apply IH1 in Hk. now apply IH2 in Hk.
  - destruct (rmatch r1 (m ++ rest) g k) eqn:E; [discriminate|]. now apply IH.
  - destruct (rmatch r1 (m ++ rest) g k); [discriminate|]. now apply IH.
  - destruct (rmatch r (m ++ rest) g k) eqn:E; [discriminate|]. now apply IH.
  - now destruct (rmatch r rest g k).
  - now apply (star_k_complete cl m rest _ Hk).
  - now apply (plus_k_complete cl m rest _ Hk).
  - now apply IH in Hk.
Qed.

Lemma re_match_complete (r : regex) (m rest : string) g :
  Matches r m [] g -> re_match r (m ++ rest) <> None.
Proof.
  intros M Hno. unfold re_match in Hno.
  apply (rmatch_complete r m [] g M rest) in Hno. discriminate.
Qed.

(** [re.search] finds a match wherever there is one. *)
Lemma re_search_complete (r : regex) (before m rest : string) g :
  Matches r m [] g -> re_search r (before ++ m ++ rest) <> None.
Proof.
  intros M. induction before as [|c before IH]; simpl append.
  - pose proof (re_match_complete r m rest g M) as Hm.
    destruct (m ++ rest); cbn [re_search];
      destruct (re_match r _); congruence.
  - cbn [re_search]. destruct (re_match r _); [discriminate | exact IH].
Qed.

(** What [re.search] finds is a match, and no match starts before it. *)
Lemma re_search_leftmost (r : regex) (s : string) g :
  re_search r s = Some g ->
  exists before m rest,
    s = before ++ m ++ rest /\ Matches r m [] g
    /\ re_match r (m ++ rest) = Some g
    /\ forall before' m' rest' g',
         s = before' ++ m' ++ rest' -> Matches r m' [] g' ->
         String.length before <= String.length before'.
Proof.
  induction s as [|c s IH]; cbn [re_search].
  - destruct (re_match r "") as [g0|] eqn:E; [|discriminate].
    intros Hg; inversion Hg; subst g0.
    destruct (re_match_sound r "" g E) as (m & rest & Es & M).
    exists "", m, rest. simpl. rewrite <- Es.
    repeat split; auto. intros; lia.
  - destruct (re_match r (String c s)) as [g0|] eqn:E.
    + intros Hg; inversion Hg; subst g0.
      destruct (re_match_sound r _ g E) as (m & rest & Es & M).
      exists "", m, rest. simpl. rewrite <- Es.
      repeat split; auto. intros; lia.
    + intros Hg. apply IH in Hg as (before & m & rest & -> & M & Hm & Hleft).
      exists (String c before), m, rest. repeat split; auto.
      intros before' m' rest' g' Es M'.
      destruct before' as [|c' before']; simpl in Es.
      * exfalso. rewrite Es in E. now apply (re_match_complete r m' rest' g' M').
      * inversion Es; subst c'. simpl.
        apply le_n_S. eapply Hleft; eauto.
Qed.

(** One layer of a concatenation. *)
Lemma rmatch_cat_sound {A} (r1 r2 : regex) (s : string) g
      (k : string -> string -> captures -> option A) a :
  rmatch (r1 >> r2) s g k = Some a ->
  exists m1 s1 g1,
    s = m1 ++ s1 /\ Matches r1 m1 g g1
    /\ rmatch r2 s1 g1 (fun m2 s2 g2 => k (m1 ++ m2) s2 g2) = Some a.
Proof.
  intros Hm.
  change (rmatch r1 s g (fun m1 s1 g1 =>
            rmatch r2 s1 g1 (fun m2 s2 g2 => k (m1 ++ m2) s2 g2)) = Some a) in Hm.
  now apply rmatch_sound in Hm.
Qed.

End ReFacts.

(** ** The monad *)

Module MFacts.
Import Py Host.

Section Laws.

Context {A B : Type}.

Lemma bind_ok (m : M A) (k : A -> M B) tr a tr' :
  m tr = (inr a, tr') -> bind m k tr = k a tr'.
Proof. unfold bind; now intros ->. Qed.

Lemma bind_fail (m : M A) (k : A -> M B) tr e tr' :
  m tr = (inl e, tr') -> bind m k tr = (inl e, tr').
Proof. unfold bind; now intros ->. Qed.

Lemma bind_lift (x : exc A) (k : A -> M B) tr a :
  x = inr a -> bind (lift x) k tr = k a tr.
Proof. now intros ->. Qed.

Lemma bind_lift_fail (x : exc A) (k : A -> M B) tr e :
  x = inl e -> bind (lift x) k tr = (inl (Raised e), tr).
Proof. now intros ->. Qed.

End Laws.

Lemma eq_str_true v s : eq_str v s = true <-> v = JStr s.
Proof.
  destruct v; simpl; split; try discriminate; intros E.
  - apply String.eqb_eq in E; now subst.
  - inversion E; apply String.eqb_refl.
Qed.

Lemma subscript_raises v k e :
  subscript v k = inl e -> e = KeyError \/ e = TypeError.
Proof.
  destruct v; simpl; try (intros E; inversion E; auto; fail).
  destruct (assoc k items); intros E; inversion E; auto.
Qed.

(** [try_get] swallows what a chain of subscripts can raise. *)
Lemma try_get_total src getter t :
  (forall e, getter src = inl e -> e = KeyError \/ e = TypeError) ->
  exists v, try_get src getter t = inr v.
Proof.
  intros Hg. unfold try_get. destruct (getter src) as [e|v] eqn:E; [|eauto].
  destruct (Hg e eq_refl) as [-> | ->]; eauto.
Qed.

Lemma try_get_path_total src k1 k2 t :
  exists v,
    try_get src (fun x => let? y := subscript x k1 in subscript y k2) t = inr v.
Proof.
  apply try_get_total. intros e.
  destruct (subscript src k1) as [e'|y] eqn:E; simpl.
  - intros E'; inversion E'; subst. eapply subscript_raises; eauto.
  - apply subscript_raises.
Qed.

Lemma assoc_dict_set k k' v m :
  assoc k (dict_set k' v m) = if k' =? k then Some v else assoc k m.
Proof.
  induction m as [|[k0 v0] m IH]; simpl.
  - destruct (k' =? k) eqn:E; reflexivity.
  - destruct (k0 =? k') eqn:E0; simpl.
    + apply String.eqb_eq in E0; subst k0.
      destruct (k' =? k); reflexivity.
    + rewrite IH. destruct (k0 =? k) eqn:E1; [|reflexivity].
      apply String.eqb_eq in E1; subst k0. now rewrite String.eqb_sym, E0.
Qed.

End MFacts.

(** ** The URL matchers *)

Module UrlFacts.
Import Py Re Host Props ReFacts.

Ltac invert_matches :=
  repeat match goal with
         | M : Matches (Lit _) _ _ _ |- _ => inversion M; clear M; subst
         | M : Matches (Cat _ _) _ _ _ |- _ => inversion M; clear M; subst
         | M : Matches (Alt _ _) _ _ _ |- _ => inversion M; clear M; subst
         | M : Matches (Opt _) _ _ _ |- _ => inversion M; clear M; subst
         | M : Matches (Star _) _ _ _ |- _ => inversion M; clear M; subst
         | M : Matches (Plus _) _ _ _ |- _ => inversion M; clear M; subst
         | M : Matches (Group _ _) _ _ _ |- _ => inversion M; clear M; subst
         end.

(** C8: every single-video URL, plain or embed, with or without the
    [www.] or [m.] subdomain, over http or https, yields the run of digits
    after [/video/] or [/embed/] as its identifier. *)
Theorem video_url_same_id (scheme sub kind d rest : string) :
  In scheme ["http"; "https"] -> In sub [""; "www."; "m."] ->
  In kind ["video"; "embed"] ->
  numeric d -> starts_in digit rest = false ->
  _match_id VLiveIE._VALID_URL
    (scheme ++ "://" ++ sub ++ "vlive.tv/" ++ kind ++ "/" ++ d ++ rest) = inr d.
Proof.
  intros Hs Hsub Hk [Hne Hd] Hrest.
  unfold _match_id, re_match, VLiveIE._VALID_URL.
  simpl in Hs, Hsub, Hk.
  destruct Hs as [<-|[<-|[]]]; destruct Hsub as [<-|[<-|[<-|[]]]];
    destruct Hk as [<-|[<-|[]]]; simpl;
    now rewrite (plus_k_greedy digit d rest _ [("id", d)]).
Qed.

Lemma video_url_same_id_witness :
  _match_id VLiveIE._VALID_URL "https://m.vlive.tv/embed/1326?x=1" = inr "1326"
  /\ _match_id VLiveIE._VALID_URL "http://www.vlive.tv/video/1326" = inr "1326".
Proof.
  split.
  - apply (video_url_same_id "https" "m." "embed" "1326" "?x=1");
      simpl; auto; split; [discriminate | reflexivity].
  - apply (video_url_same_id "http" "www." "video" "1326" "");
      simpl; auto; split; [discriminate | reflexivity].
Defined.

Lemma video_id_numeric url id :
  _match_id VLiveIE._VALID_URL url = inr id -> numeric id.
Proof.
  unfold _match_id. destruct (re_match _ url) as [g|] eqn:Hm; [|discriminate].
  apply re_match_sound in Hm as (m & rest & -> & M).
  unfold VLiveIE._VALID_URL in M.
  invert_matches; simpl; intros E; inversion E; subst; split; assumption.
Qed.

Lemma channel_code_alphanumeric url code :
  _match_id VLiveChannelIE._VALID_URL url = inr code -> alphanumeric code.
Proof.
  unfold _match_id. destruct (re_match _ url) as [g|] eqn:Hm; [|discriminate].
  apply re_match_sound in Hm as (m & rest & -> & M).
  unfold VLiveChannelIE._VALID_URL in M.
  invert_matches; simpl; intros E; inversion E; subst; split; assumption.
Qed.

Lemma playlist_ids_numeric url video_id playlist_id :
  VLivePlaylistIE.match_groups url = inr (video_id, playlist_id) ->
  numeric video_id /\ numeric playlist_id.
Proof.
  unfold VLivePlaylistIE.match_groups.
  destruct (re_match _ url) as [g|] eqn:Hm; [|discriminate].
  apply re_match_sound in Hm as (m & rest & -> & M).
  unfold VLivePlaylistIE._VALID_URL in M.
  invert_matches; simpl; intros E; inversion E; subst; repeat split; assumption.
Qed.

End UrlFacts.

(** ** Single videos *)

Module VideoFacts.
Import Py Re Host Props MFacts VLiveIE.

Section Video.

Context `{InfoExtractor}.

Lemma real_extract_dispatch url video_id post tr tr' :
  _match_id _VALID_URL url = inr video_id ->
  call_post video_id tr = (inr post, tr') ->
  _real_extract url tr = dispatch video_id post tr'.
Proof.
  intros Hid Hpost. unfold _real_extract.
  rewrite (bind_lift _ _ _ _ Hid).
  apply bind_ok. unfold try_except. now rewrite Hpost.
Qed.

Lemma real_extract_handler url video_id e tr tr' :
  _match_id _VALID_URL url = inr video_id ->
  call_post video_id tr = (inl e, tr') ->
  _real_extract url tr
  = bind (on_metadata_error e) (dispatch video_id) tr'.
Proof.
  intros Hid Hpost. unfold _real_extract.
  rewrite (bind_lift _ _ _ _ Hid).
  unfold bind, try_except. now rewrite Hpost.
Qed.

(** C1: a fetched LIVE record whose status is ENDED makes extraction
    raise the expected replay-pending error, whatever its exposeStatus
    (CANCEL included); likewise RESERVED raises the coming-soon error;
    the canceled error is for a LIVE record whose status is none of
    ON_AIR, ENDED and RESERVED and whose exposeStatus is CANCEL. *)
Theorem ended_before_cancel url video_id post video tr tr' :
  _match_id _VALID_URL url = inr video_id ->
  call_post video_id tr = (inr post, tr') ->
  subscript post "officialVideo" = inr video ->
  get video "type" = inr (JStr "LIVE") ->
  (get video "status" = inr (JStr "ENDED") ->
   _real_extract url tr =
     (inl (ExtractorError "Uploading for replay. Please wait..." true NoCause), tr'))
  /\
  (get video "status" = inr (JStr "RESERVED") ->
   _real_extract url tr = (inl (ExtractorError "Coming soon!" true NoCause), tr'))
  /\
  (forall status,
     get video "status" = inr status ->
     eq_str status "ON_AIR" = false -> eq_str status "ENDED" = false ->
     eq_str status "RESERVED" = false ->
     get video "exposeStatus" = inr (JStr "CANCEL") ->
     _real_extract url tr =
       (inl (ExtractorError
               "We are sorry, but the live broadcast has been canceled." true
               NoCause), tr')).
Proof.
  intros Hid Hpost Hvideo Htype.
  rewrite (real_extract_dispatch _ _ _ _ _ Hid Hpost).
  unfold dispatch.
  rewrite (bind_lift _ _ _ _ Hvideo), (bind_lift _ _ _ _ Htype).
  replace (eq_str (JStr "LIVE") "VOD") with false by reflexivity.
  replace (eq_str (JStr "LIVE") "LIVE") with true by reflexivity. cbv iota.
  repeat split.
  - intros Hs. now rewrite (bind_lift _ _ _ _ Hs).
  - intros Hs. now rewrite (bind_lift _ _ _ _ Hs).
  - intros status Hs H1 H2 H3 He.
    rewrite (bind_lift _ _ _ _ Hs), H1, H2, H3.
    now rewrite (bind_lift _ _ _ _ He).
Qed.

(** The unknown-status branch, where the code has it. *)
Lemma unknown_live_status url video_id post video tr tr' s expose :
  _match_id _VALID_URL url = inr video_id ->
  call_post video_id tr = (inr post, tr') ->
  subscript post "officialVideo" = inr video ->
  get video "type" = inr (JStr "LIVE") ->
  get video "status" = inr (JStr s) ->
  s <> "ON_AIR" -> s <> "ENDED" -> s <> "RESERVED" ->
  get video "exposeStatus" = inr expose ->
  eq_str expose "CANCEL" = false ->
  _real_extract url tr
  = (inl (ExtractorError ("Unknown status " ++ s) false NoCause), tr').
Proof.
  intros Hid Hpost Hvideo Htype Hs H1 H2 H3 He Hc.
  rewrite (real_extract_dispatch _ _ _ _ _ Hid Hpost).
  unfold dispatch.
  rewrite (bind_lift _ _ _ _ Hvideo), (bind_lift _ _ _ _ Htype).
  replace (eq_str (JStr "LIVE") "VOD") with false by reflexivity.
  replace (eq_str (JStr "LIVE") "LIVE") with true by reflexivity. cbv iota.
  rewrite (bind_lift _ _ _ _ Hs). cbn [eq_str].
  apply String.eqb_neq in H1, H2, H3. rewrite H1, H2, H3.
  rewrite (bind_lift _ _ _ _ He), Hc. reflexivity.
Qed.

(** A record that is neither VOD nor LIVE: nothing is raised and
    nothing returned. *)
Lemma other_type_returns_none url video_id post video video_type tr tr' :
  _match_id _VALID_URL url = inr video_id ->
  call_post video_id tr = (inr post, tr') ->
  subscript post "officialVideo" = inr video ->
  get video "type" = inr video_type ->
  eq_str video_type "VOD" = false -> eq_str video_type "LIVE" = false ->
  _real_extract url tr = (inr JNull, tr').
Proof.
  intros Hid Hpost Hvideo Htype H1 H2.
  rewrite (real_extract_dispatch _ _ _ _ _ Hid Hpost).
  unfold dispatch.
  rewrite (bind_lift _ _ _ _ Hvideo), (bind_lift _ _ _ _ Htype), H1, H2.
  reflexivity.
Qed.

(** C4: when the metadata call fails with HTTP 403, extraction reads
    [message] from the body of the answer and raises the login-required
    error carrying it; any other failure of the call reaches the caller
    as it is. *)
Theorem login_required_on_403 url video_id tr tr' :
  _match_id _VALID_URL url = inr video_id ->
  (forall msg expected body v message,
     call_post video_id tr
     = (inl (ExtractorError msg expected (HTTPError 403 body)), tr') ->
     json_loads body = Some v ->
     subscript v "message" = inr message ->
     _real_extract url tr = (inl (LoginRequired message), tr'))
  /\
  (forall e,
     call_post video_id tr = (inl e, tr') ->
     (forall msg expected body,
        e <> ExtractorError msg expected (HTTPError 403 body)) ->
     _real_extract url tr = (inl e, tr')).
Proof.
  intros Hid; split.
  - intros msg expected body v message Hcall Hbody Hmsg.
    rewrite (real_extract_handler _ _ _ _ _ Hid Hcall).
    unfold on_metadata_error. simpl. rewrite Hbody.
    unfold bind at 1. rewrite (bind_lift _ _ _ _ Hmsg). reflexivity.
  - intros e Hcall Hother.
    rewrite (real_extract_handler _ _ _ _ _ Hid Hcall).
    unfold on_metadata_error.
    destruct e as [msg expected c | msg | e]; try reflexivity.
    destruct c as [|code body|]; try reflexivity.
    destruct (Z.eqb_spec code 403) as [->|]; [|reflexivity].
    now destruct (Hother msg expected body).
Qed.

End Video.

(** The record of the witnesses: a broadcast that has ended and was
    canceled. *)
Lemma ended_before_cancel_witness :
  _real_extract (H := Sample.post_host (Sample.post "LIVE" "ENDED" "CANCEL"))
    "http://www.vlive.tv/video/1326" []
  = (inl (ExtractorError "Uploading for replay. Please wait..." true NoCause),
     snd (call_post (H := Sample.post_host (Sample.post "LIVE" "ENDED" "CANCEL"))
            "1326" [])).
Proof.
  apply (proj1 (ended_before_cancel
                  (H := Sample.post_host (Sample.post "LIVE" "ENDED" "CANCEL"))
                  "http://www.vlive.tv/video/1326" "1326"
                  (Sample.post "LIVE" "ENDED" "CANCEL")
                  (JObj [("type", JStr "LIVE"); ("status", JStr "ENDED");
                         ("exposeStatus", JStr "CANCEL"); ("title", JStr "t")])
                  [] _ eq_refl eq_refl eq_refl eq_refl));
    reflexivity.
Defined.

(** C2, on the code: a fetched record of a type that is neither VOD nor
    LIVE makes extraction return [None]; no error names the type or the
    status. *)
Theorem other_type_is_silent :
  fst (_real_extract (H := Sample.post_host (Sample.post "CLIP" "ENDED" "NORMAL"))
         "http://www.vlive.tv/video/1326" [])
  = inr JNull.
Proof. reflexivity. Qed.

(** A LIVE record without status: the message cannot be built. *)
Example missing_status_is_type_error :
  fst (_real_extract
         (H := Sample.post_host (JObj [("officialVideo", JObj [("type", JStr "LIVE")])]))
         "http://www.vlive.tv/video/1326" [])
  = inl (Raised TypeError).
Proof. reflexivity. Qed.

Lemma login_required_on_403_witness :
  (_real_extract
     (H := Sample.refusing_host
             (ExtractorError "HTTP Error 403" false
                (HTTPError 403 Sample.subscribers_only)))
     "http://www.vlive.tv/video/129100" []
   = (inl (LoginRequired (JStr "Subscribers only")),
      snd (call_post
             (H := Sample.refusing_host
                     (ExtractorError "HTTP Error 403" false
                        (HTTPError 403 Sample.subscribers_only)))
             "129100" [])))
  /\
  (_real_extract
     (H := Sample.refusing_host (ExtractorError "HTTP Error 500" false
                                   (HTTPError 500 "")))
     "http://www.vlive.tv/video/129100" []
   = (inl (ExtractorError "HTTP Error 500" false (HTTPError 500 "")),
      snd (call_post
             (H := Sample.refusing_host (ExtractorError "HTTP Error 500" false
                                           (HTTPError 500 "")))
             "129100" []))).
Proof.
  split.
  - apply (proj1 (login_required_on_403
                    (H := Sample.refusing_host
                            (ExtractorError "HTTP Error 403" false
                               (HTTPError 403 Sample.subscribers_only)))
                    "http://www.vlive.tv/video/129100" "129100" [] _ eq_refl)
             "HTTP Error 403" false Sample.subscribers_only
             (JObj [("message", JStr "Subscribers only")]));
      reflexivity.
  - apply (proj2 (login_required_on_403
                    (H := Sample.refusing_host
                            (ExtractorError "HTTP Error 500" false
                               (HTTPError 500 "")))
                    "http://www.vlive.tv/video/129100" "129100" [] _ eq_refl));
      [reflexivity | discriminate].
Defined.

End VideoFacts.

(** ** Login *)

Module LoginFacts.
Import Py Re Host Props MFacts VLiveIE.

Lemma logged_in_flag login_info :
  exists v,
    try_get login_info
      (fun x => let? m := subscript x "message" in subscript m "login") TBool
    = inr v
    /\ truthy (or_else v (JBool false)) = login_flag login_info.
Proof.
  unfold login_flag, try_get.
  destruct (let? m := subscript login_info "message" in subscript m "login")
    as [e|v] eqn:E.
  - assert (He : e = KeyError \/ e = TypeError).
    { destruct (subscript login_info "message") as [e'|m] eqn:E1; simpl in E.
      - inversion E; subst. eapply subscript_raises; eauto.
      - eapply subscript_raises; eauto. }
    destruct He as [-> | ->]; exists JNull; auto.
  - exists (if isinstance v TBool then v else JNull); split; [reflexivity|].
    destruct v as [|[]| | | |]; reflexivity.
Qed.

Section Login.

Context `{InfoExtractor}.

(** C7: with a credential missing, login does nothing.  With both, the
    login page is asked for first, then the credential form is sent,
    then the session info is read; when all three answer, login
    succeeds if the flag of the session info is set and raises the
    expected error [Unable to log in] otherwise. *)
Theorem login_protocol tr :
  (forall email password,
     _get_login_info = (email, password) ->
     email = None \/ password = None ->
     _login tr = (inr tt, tr))
  /\
  (forall email password,
     _get_login_info = (Some email, Some password) ->
     (exists rest,
        snd (_login tr) = (tr ++ Sent login_page_request :: rest)%list
        /\ (rest = []
            \/ rest = [Sent (login_form_request email password)]
            \/ rest = [Sent (login_form_request email password);
                       Sent login_info_request]))
     /\
     (forall page reply login_info,
        page_of tr login_page_request = inr page ->
        page_of (tr ++ [Sent login_page_request])%list
          (login_form_request email password) = inr reply ->
        json_of (tr ++ [Sent login_page_request;
                        Sent (login_form_request email password)])%list
          login_info_request = inr login_info ->
        _login tr
        = (if login_flag login_info then inr tt
           else inl (ExtractorError "Unable to log in" true NoCause),
           (tr ++ [Sent login_page_request;
                   Sent (login_form_request email password);
                   Sent login_info_request])%list))).
Proof.
  split.
  - intros email password Hinfo Hnone. unfold _login. rewrite Hinfo.
    destruct Hnone as [-> | ->]; [reflexivity | now destruct email].
  - intros email password Hinfo. unfold _login. rewrite Hinfo.
    unfold is_logged_in, _request_webpage, _download_webpage, _download_json,
      send_page, bind.
    change (RequestWebpage LOGIN_URL JNull "Downloading login cookies")
      with login_page_request.
    change (DownloadWebpage LOGIN_URL JNull (Some "Logging in")
              (Some [("email", email); ("pwd", password)])
              [("Referer", LOGIN_URL);
               ("Content-Type", "application/x-www-form-urlencoded")])
      with (login_form_request email password).
    change (DownloadJson "https://www.vlive.tv/auth/loginInfo" JNull
              "Downloading login info" [("Referer", "https://www.vlive.tv/home")] [])
      with login_info_request.
    split.
    + destruct (page_of tr login_page_request) as [e|page]; cbn [snd fst].
      { exists []; split; auto. }
      cbn [ret].
      destruct (page_of _ (login_form_request email password)) as [e|reply].
      { exists [Sent (login_form_request email password)].
        rewrite <- app_assoc. split; auto. }
      exists [Sent (login_form_request email password); Sent login_info_request].
      split; [|auto].
      destruct (json_of _ login_info_request) as [e|login_info].
      { now rewrite <- !app_assoc. }
      destruct (logged_in_flag login_info) as (v & -> & _). cbn [lift ret].
      destruct (negb _); cbn [raise ret snd]; now rewrite <- !app_assoc.
    + intros page reply login_info H1 H2 H3.
      rewrite H1. cbn [ret]. rewrite H2.
      rewrite <- !app_assoc. cbn [app]. rewrite H3.
      destruct (logged_in_flag login_info) as (v & -> & Hv). cbn [lift ret].
      rewrite Hv. now destruct (login_flag login_info).
Qed.

End Login.

Lemma login_protocol_witness :
  (_login (H := Sample.login_host (None, Some "pw") true) [] = (inr tt, []))
  /\
  (_login (H := Sample.login_host (Some "a@b.c", Some "pw") false) []
   = (inl (ExtractorError "Unable to log in" true NoCause),
      [Sent login_page_request; Sent (login_form_request "a@b.c" "pw");
       Sent login_info_request])).
Proof.
  split.
  - apply (proj1 (login_protocol (H := Sample.login_host (None, Some "pw") true) [])
             None (Some "pw") eq_refl).
    left; reflexivity.
  - apply (proj2 (proj2 (login_protocol
                           (H := Sample.login_host (Some "a@b.c", Some "pw") false) [])
                        "a@b.c" "pw" eq_refl)
             "" "" (JObj [("message", JObj [("login", JBool false)])]));
      reflexivity.
Defined.

End LoginFacts.

(** ** Channel listings *)

Module ChannelFacts.
Import Py Re Host Props MFacts VLiveChannelIE.

(** What the inner loop appends. *)
Lemma add_entries_sound videos : forall entries es,
  add_entries videos entries = inr es ->
  es = (entries ++ map video_ref (video_ids videos))%list.
Proof.
  induction videos as [|video videos IH]; intros entries es; simpl.
  - intros E; inversion E. now rewrite app_nil_r.
  - destruct (get video "videoSeq") as [e|v]; simpl; [discriminate|].
    destruct (truthy v); simpl; intros E.
    + apply IH in E. rewrite E, <- app_assoc. reflexivity.
    + now apply IH.
Qed.

Lemma add_entries_total videos : forall entries,
  forallb is_obj videos = true ->
  add_entries videos entries
  = inr (entries ++ map video_ref (video_ids videos))%list.
Proof.
  induction videos as [|video videos IH]; intros entries Hobj; simpl in *.
  - now rewrite app_nil_r.
  - apply andb_prop in Hobj as [Hv Hobj].
    destruct video; try discriminate. simpl.
    destruct (truthy _); simpl; rewrite IH by assumption.
    + now rewrite <- app_assoc.
    + reflexivity.
Qed.

Lemma video_ids_length videos : (List.length (video_ids videos) <= List.length videos)%nat.
Proof.
  induction videos as [|video videos IH]; simpl; [lia|].
  destruct (get video "videoSeq") as [e|v]; [lia|].
  destruct (truthy v); simpl; lia.
Qed.

Section Loop.
Context `{InfoExtractor}.

Lemma list_page_unfold channel_seq p tr :
  list_page channel_seq p tr
  = match json_of tr (page_request channel_seq p) with
    | inl e => (inl e, (tr ++ [Sent (page_request channel_seq p)])%list)
    | inr r =>
        lift (subscript r "result") (tr ++ [Sent (page_request channel_seq p)])%list
    end.
Proof. reflexivity. Qed.

Lemma list_page_trace channel_seq p tr r tr' :
  list_page channel_seq p tr = (r, tr') ->
  tr' = (tr ++ [Sent (page_request channel_seq p)])%list.
Proof.
  rewrite list_page_unfold.
  destruct (json_of tr (page_request channel_seq p)) as [e|v].
  - intros E; now inversion E.
  - unfold lift. destruct (subscript v "result"); intros E; now inversion E.
Qed.

Lemma serves_trace channel_seq p tr pages tr' :
  Serves channel_seq p tr pages tr' ->
  tr' = (tr ++ asked channel_seq p (S (List.length pages)))%list.
Proof.
  induction 1 as [p tr vl tr' videos Hcall _ _
                 | p tr vl tr' page pages tr'' Hcall _ _ _ IH].
  - now apply list_page_trace in Hcall.
  - apply list_page_trace in Hcall. subst tr'. rewrite IH.
    rewrite <- app_assoc. reflexivity.
Qed.

(** Reading the channel name never raises. *)
Lemma channel_name_step (channel_name video_list : json) :
  exists channel_name',
    (if negb (truthy channel_name) then
       lift (try_get video_list
               (fun x => let? info := subscript x "channelInfo" in
                         subscript info "channelName")
               TStr)
     else ret channel_name)
    = ret channel_name'.
Proof.
  destruct (negb (truthy channel_name)); [|now exists channel_name].
  destruct (try_get_path_total video_list "channelInfo" "channelName" TStr)
    as [n ->].
  now exists n.
Qed.

Lemma page_loop_serves channel_seq p tr pages tr' :
  Serves channel_seq p tr pages tr' ->
  forallb (forallb is_obj) pages = true ->
  forall fuel channel_name entries,
    (List.length pages < fuel)%nat ->
    exists channel_name',
      page_loop fuel channel_seq p channel_name entries tr
      = (inr (Some (channel_name',
                    (entries ++ flat_map (fun page => map video_ref (video_ids page))
                                         pages)%list)),
         tr').
Proof.
  induction 1 as [p tr vl tr' videos Hcall Hvideos Hfalsy
                 | p tr vl tr' page pages tr'' Hcall Hvideos Hne _ IH];
    intros Hobj fuel channel_name entries Hfuel;
    (destruct fuel as [|fuel]; [simpl in Hfuel; lia|]); cbn [page_loop];
    rewrite (bind_ok _ _ _ _ _ Hcall);
    destruct (channel_name_step channel_name vl) as [n ->];
    unfold bind at 1, ret at 1; fold (videos_of vl);
    rewrite (bind_lift _ _ _ _ Hvideos).
  - rewrite Hfalsy. exists n. cbn [negb flat_map]. now rewrite app_nil_r.
  - cbn [forallb] in Hobj. apply andb_prop in Hobj as [Hpage Hobj].
    replace (truthy (JList page)) with true
      by (destruct page; [congruence | reflexivity]).
    cbn [negb].
    rewrite (bind_lift (iterate (JList page)) _ _ page eq_refl).
    rewrite (bind_lift _ _ _ _ (add_entries_total page entries Hpage)).
    destruct (IH Hobj fuel n (entries ++ map video_ref (video_ids page))%list)
      as [n' ->]; [simpl in Hfuel; lia|].
    exists n'. cbn [flat_map]. now rewrite <- app_assoc.
Qed.

(** The whole extraction of a channel whose listing goes that way. *)
Lemma channel_listing url channel_code tr r tr1 channel_seq pages tr' fuel :
  _match_id _VALID_URL url = inr channel_code ->
  _call_api "decodeChannelCode" "Code" (JStr channel_code)
    "decode channel code" [] tr = (inr r, tr1) ->
  subscript r "channelSeq" = inr channel_seq ->
  Serves channel_seq 1 tr1 pages tr' ->
  forallb (forallb is_obj) pages = true ->
  (List.length pages < fuel)%nat ->
  exists channel_name,
    _real_extract fuel url tr
    = (inr (Some (playlist_result
                    (flat_map (fun page => map video_ref (video_ids page)) pages)
                    (JStr channel_code) channel_name)),
       tr').
Proof.
  intros Hurl Hcall Hseq Hserves Hobj Hfuel. unfold _real_extract.
  rewrite (bind_lift _ _ _ _ Hurl), (bind_ok _ _ _ _ _ Hcall),
    (bind_lift _ _ _ _ Hseq).
  destruct (page_loop_serves _ _ _ _ _ Hserves Hobj fuel JNull [] Hfuel)
    as [n Hloop].
  rewrite (bind_ok _ _ _ _ _ Hloop). exists n. reflexivity.
Qed.

End Loop.

Lemma asked_page_size channel_seq n : forall p r,
  In (Sent r) (asked channel_seq p n) -> query_of r "maxNumOfRows" = JInt 100.
Proof.
  induction n as [|n IH]; intros p r; simpl; [tauto|].
  intros [E|Hin]; [inversion E; reflexivity | eauto].
Qed.

Section Claims.
Context `{InfoExtractor}.

(** C3: the listing is asked for page after page, each request with a
    page size of 100; when the upstream serves non-empty video lists
    and then one that is empty or absent, the loop stops at that page,
    having sent exactly one request more than there are non-empty
    pages, and the entries are those it had followed by the references
    to the identifiers of the pages, page by page, in the order of
    each page, duplicates kept. *)
Theorem channel_pagination channel_seq p tr pages tr' fuel channel_name entries :
  Serves channel_seq p tr pages tr' ->
  forallb (forallb is_obj) pages = true ->
  (List.length pages < fuel)%nat ->
  tr' = (tr ++ asked channel_seq p (S (List.length pages)))%list
  /\ (forall r, In (Sent r) (asked channel_seq p (S (List.length pages))) ->
                query_of r "maxNumOfRows" = JInt 100)
  /\ exists channel_name',
       page_loop fuel channel_seq p channel_name entries tr
       = (inr (Some (channel_name',
                     (entries ++ flat_map (fun page => map video_ref (video_ids page))
                                          pages)%list)),
          tr').
Proof.
  intros Hs Hobj Hfuel. repeat split.
  - now apply serves_trace.
  - apply asked_page_size.
  - now apply page_loop_serves.
Qed.

(** C10: an item of a page whose [videoSeq] is missing or falsy adds no
    entry and raises nothing; over a page of objects the entries added
    are the references to the identifiers that are there, so there can
    be fewer entries than items. *)
Theorem falsy_video_seq_skipped :
  (forall video videos entries v,
     get video "videoSeq" = inr v -> truthy v = false ->
     add_entries (video :: videos) entries = add_entries videos entries)
  /\
  (forall videos entries,
     forallb is_obj videos = true ->
     add_entries videos entries
     = inr (entries ++ map video_ref (video_ids videos))%list
     /\ (List.length (video_ids videos) <= List.length videos)%nat)
  /\
  (exists videos,
     forallb is_obj videos = true
     /\ (List.length (video_ids videos) < List.length videos)%nat).
Proof.
  repeat split.
  - intros video videos entries v Hget Hv. cbn [add_entries].
    rewrite Hget. cbn [exc_bind]. now rewrite Hv.
  - now apply add_entries_total.
  - apply video_ids_length.
  - exists [Sample.item (JInt 0)]. split; [reflexivity | simpl; lia].
Qed.

End Claims.

Lemma channel_pagination_witness :
  exists channel_name,
    page_loop (H := Sample.channel_host) 3 (JInt 7) 1 JNull [] []
    = (inr (Some (channel_name,
                  [video_ref "5"; video_ref "abc"; video_ref "5"; video_ref "9"])),
       asked (JInt 7) 1 3).
Proof.
  assert (S : Serves (H := Sample.channel_host) (JInt 7) 1 []
                [[Sample.item (JInt 5); Sample.item (JStr "abc");
                  Sample.item (JInt 0); JObj []; Sample.item (JInt 5)];
                 [Sample.item (JInt 9)]]
                (asked (JInt 7) 1 3)).
  { eapply ServesMore; [reflexivity | reflexivity | discriminate |].
    eapply ServesMore; [reflexivity | reflexivity | discriminate |].
    eapply ServesLast; reflexivity. }
  destruct (channel_pagination (H := Sample.channel_host) _ _ _ _ _ 3 JNull [] S
              eq_refl (le_n 3))
    as (_ & _ & name & E).
  exists name. exact E.
Defined.

Lemma falsy_video_seq_skipped_witness :
  add_entries [Sample.item (JInt 0); JObj []; Sample.item (JInt 9)] []
  = inr [video_ref "9"].
Proof.
  rewrite (proj1 (falsy_video_seq_skipped)
             (Sample.item (JInt 0)) _ [] (JInt 0) eq_refl eq_refl).
  rewrite (proj1 (falsy_video_seq_skipped)
             (JObj []) _ [] JNull eq_refl eq_refl).
  apply (proj1 (proj2 (falsy_video_seq_skipped))
           [Sample.item (JInt 9)] [] eq_refl).
Defined.

End ChannelFacts.

(** ** Playlists *)

Module PlaylistFacts.
Import Py Re Host Props ReFacts StrFacts MFacts UrlFacts VLivePlaylistIE.

(** The pattern of the identifier list matches the texts that [has_seqs]
    describes, and only them. *)
Lemma seqs_matches m g :
  Matches playlist_seqs_re m [] g ->
  exists ws1 ws2 body,
    m = "playlistVideoSeqs" ++ ws1 ++ "=" ++ ws2 ++ "[" ++ body ++ "]"
    /\ all_in CSpace ws1 = true /\ all_in CSpace ws2 = true
    /\ body <> "" /\ all_in (CNot (CChar "]")) body = true
    /\ g = [("1", "[" ++ body ++ "]")].
Proof.
  intros M. unfold playlist_seqs_re in M. invert_matches.
  match goal with
  | H1 : all_in CSpace ?w1 = true, H2 : all_in CSpace ?w2 = true,
    Hb : all_in (CNot _) ?b = true
    |- context [?w1 ++ "=" ++ ?w2 ++ _] => exists w1, w2, b
  end.
  repeat split; auto.
Qed.

Lemma seqs_matched ws1 ws2 body :
  all_in CSpace ws1 = true -> all_in CSpace ws2 = true ->
  body <> "" -> all_in (CNot (CChar "]")) body = true ->
  Matches playlist_seqs_re
    ("playlistVideoSeqs" ++ ws1 ++ "=" ++ ws2 ++ "[" ++ body ++ "]") []
    [("1", "[" ++ body ++ "]")].
Proof.
  intros H1 H2 Hne Hb. unfold playlist_seqs_re.
  apply MCat with (g1 := []); [apply MLit|].
  apply MCat with (g1 := []); [now apply MStar|].
  apply MCat with (g1 := []); [apply MLit|].
  apply MCat with (g1 := []); [now apply MStar|].
  apply MGroup.
  apply MCat with (g1 := []); [apply MLit|].
  apply MCat with (g1 := []); [now apply MPlus | apply MLit].
Qed.

(** The search for the identifier list finds nothing exactly on the pages
    that hold none. *)
Lemma search_none_iff webpage :
  _search_regex playlist_seqs_re webpage = JNull <-> ~ has_seqs webpage.
Proof.
  unfold _search_regex. split.
  - intros Hnull (before & ws1 & ws2 & body & rest & E & H1 & H2 & Hne & Hb).
    pose proof (seqs_matched ws1 ws2 body H1 H2 Hne Hb) as M.
    pose proof (re_search_complete _ before _ rest _ M) as Hs.
    repeat rewrite append_assoc in Hs. rewrite <- E in Hs.
    destruct (re_search playlist_seqs_re webpage) as [g|] eqn:Eg; [|congruence].
    apply re_search_leftmost in Eg as (b0 & m0 & r0 & _ & M0 & _).
    apply seqs_matches in M0 as (w1 & w2 & b & _ & _ & _ & _ & _ & ->).
    discriminate Hnull.
  - intros Hno.
    destruct (re_search playlist_seqs_re webpage) as [g|] eqn:Eg; [|reflexivity].
    exfalso. apply Hno.
    apply re_search_leftmost in Eg as (b0 & m0 & r0 & E & M0 & _).
    apply seqs_matches in M0 as (w1 & w2 & b & -> & H1 & H2 & Hne & Hb & _).
    exists b0, w1, w2, b, r0. repeat split; auto.
    rewrite E. now repeat rewrite append_assoc.
Qed.

Lemma search_found webpage :
  has_seqs webpage ->
  exists body,
    _search_regex playlist_seqs_re webpage = JStr ("[" ++ body ++ "]").
Proof.
  intros Hhas. unfold _search_regex.
  destruct (re_search playlist_seqs_re webpage) as [g|] eqn:Eg.
  - apply re_search_leftmost in Eg as (b0 & m0 & r0 & _ & M0 & _).
    apply seqs_matches in M0 as (w1 & w2 & b & _ & _ & _ & _ & _ & ->).
    now exists b.
  - exfalso. apply (proj1 (search_none_iff webpage)); [|assumption].
    unfold _search_regex. now rewrite Eg.
Qed.

(** A playlist is no reference to a video. *)
Lemma playlist_result_is_no_ref entries playlist_id title video_id :
  playlist_result entries playlist_id title <> video_ref video_id.
Proof.
  intros E. apply (f_equal (fun x => get x "_type")) in E.
  unfold playlist_result in E.
  destruct (truthy playlist_id), (truthy title); simpl in E; discriminate E.
Qed.

Section Playlist.
Context `{InfoExtractor}.

Lemma build_video_result_value video_id message tr :
  _build_video_result video_id message tr
  = (inr (video_ref video_id), (tr ++ [ToScreen message])%list).
Proof.
  unfold _build_video_result, to_screen, emit, bind, ret, video_ref.
  replace (fmt_s _VIDEO_URL_TEMPLATE video_id)
    with ("http://www.vlive.tv/video/" ++ video_id); [reflexivity|].
  unfold _VIDEO_URL_TEMPLATE. cbn [fmt_s].
  now rewrite StrFacts.append_nil_r.
Qed.

(** C6: with the no-playlist option set, a playlist URL gives the
    reference to its single video, and all that extraction does is
    print one line: no page is fetched. *)
Theorem noplaylist_fetches_nothing url video_id playlist_id noplaylist tr :
  match_groups url = inr (video_id, playlist_id) ->
  get params "noplaylist" = inr noplaylist ->
  truthy noplaylist = true ->
  exists message,
    _real_extract url tr
    = (inr (video_ref video_id), (tr ++ [ToScreen message])%list).
Proof.
  intros Hurl Hget Hflag. unfold _real_extract.
  rewrite (bind_lift _ _ _ _ Hurl). cbv beta iota.
  rewrite (bind_lift _ _ _ _ Hget), Hflag.
  eexists. apply build_video_result_value.
Qed.

(** The title search returns a value, whatever the page. *)
Lemma html_search_returns pattern webpage name tr :
  exists title tr',
    _html_search_regex pattern webpage name tr = (inr title, tr').
Proof.
  unfold _html_search_regex.
  destruct (re_search pattern webpage) as [g|]; [|eexists; eexists; reflexivity].
  destruct (group g "1"); eexists; eexists; reflexivity.
Qed.

(** C5, as the code has it: when the playlist page holds no identifier
    list that the pattern can see (there is no [playlistVideoSeqs]
    followed by [=] and a bracketed text with a character between the
    brackets, as when the list is absent or written [[]]), extraction
    gives the reference to the original single video, the very value of
    the no-playlist path, and raises nothing; when the page holds such a
    list, be it only a blank between the brackets, the result is not
    that reference. *)
Theorem missing_seqs_fall_back url video_id playlist_id noplaylist webpage tr :
  match_groups url = inr (video_id, playlist_id) ->
  get params "noplaylist" = inr noplaylist ->
  truthy noplaylist = false ->
  page_of (tr ++ [ToScreen (playlist_notice playlist_id)])%list
    (playlist_page_request video_id playlist_id) = inr webpage ->
  (~ has_seqs webpage ->
   exists message,
     _real_extract url tr
     = (inr (video_ref video_id),
        (tr ++ [ToScreen (playlist_notice playlist_id);
                Sent (playlist_page_request video_id playlist_id);
                ToScreen message])%list))
  /\
  (forall message tr0,
     fst (_build_video_result video_id message tr0) = inr (video_ref video_id))
  /\
  (has_seqs webpage -> fst (_real_extract url tr) <> inr (video_ref video_id)).
Proof.
  intros Hurl Hget Hflag Hpage.
  split; [|split; [intros; now rewrite build_video_result_value|]].
  - intros Hno. unfold _real_extract.
    rewrite (bind_lift _ _ _ _ Hurl). cbv beta iota.
    rewrite (bind_lift _ _ _ _ Hget), Hflag.
    unfold to_screen, emit, _download_webpage, send_page.
    unfold bind at 1. unfold bind at 1.
    change (DownloadWebpage _ _ None None [])
      with (playlist_page_request video_id playlist_id).
    change (ToScreen _) with (ToScreen (playlist_notice playlist_id)) at 1 2.
    rewrite Hpage.
    cbv zeta. rewrite (proj2 (search_none_iff webpage) Hno). cbn [truthy negb].
    eexists. rewrite build_video_result_value. rewrite <- !app_assoc. reflexivity.
  - intros Hhas. destruct (search_found webpage Hhas) as [body Hraw].
    unfold _real_extract.
    rewrite (bind_lift _ _ _ _ Hurl). cbv beta iota.
    rewrite (bind_lift _ _ _ _ Hget), Hflag.
    unfold to_screen, emit, _download_webpage, send_page.
    unfold bind at 1. unfold bind at 1.
    change (DownloadWebpage _ _ None None [])
      with (playlist_page_request video_id playlist_id).
    change (ToScreen _) with (ToScreen (playlist_notice playlist_id)) at 1 2.
    rewrite Hpage.
    cbv zeta. rewrite Hraw. cbn [truthy String.eqb append negb].
    unfold _parse_json.
    destruct (json_loads _) as [item_ids|]; [|discriminate].
    unfold bind at 1, ret at 1.
    destruct (iterate item_ids) as [e|items].
    + rewrite (bind_lift_fail (inl e) _ _ e eq_refl). discriminate.
    + rewrite (bind_lift (inr items) _ _ items eq_refl).
      match goal with
      | |- context [_html_search_regex ?p ?w ?n] =>
          destruct (html_search_returns p w n
                      ((tr ++ [ToScreen (playlist_notice playlist_id)]) ++
                       [Sent (playlist_page_request video_id playlist_id)])%list)
            as (title & tr' & Htitle)
      end.
      rewrite (bind_ok _ _ _ _ _ Htitle). cbn [ret fst].
      intros E.
      apply (f_equal (fun x : error + json =>
                        match x with inr v => v | inl _ => JNull end)) in E.
      now apply playlist_result_is_no_ref in E.
Qed.
End Playlist.

Lemma noplaylist_fetches_nothing_witness :
  exists message,
    _real_extract (H := Sample.playlist_host "" true)
      "https://www.vlive.tv/video/117956/playlist/117963" []
    = (inr (video_ref "117956"), [ToScreen message]).
Proof.
  apply (noplaylist_fetches_nothing (H := Sample.playlist_host "" true)
           "https://www.vlive.tv/video/117956/playlist/117963"
           "117956" "117963" (JBool true) []);
    reflexivity.
Defined.

Lemma missing_seqs_fall_back_witness :
  (exists message,
     _real_extract (H := Sample.playlist_host "var playlistVideoSeqs = [];" false)
       "http://www.vlive.tv/video/22867/playlist/22912" []
     = (inr (video_ref "22867"),
        [ToScreen (playlist_notice "22912");
         Sent (playlist_page_request "22867" "22912");
         ToScreen message]))
  /\
  (exists message,
     _real_extract (H := Sample.playlist_host "<p>playlistVideoSeqs</p>" false)
       "http://www.vlive.tv/video/22867/playlist/22912" []
     = (inr (video_ref "22867"),
        [ToScreen (playlist_notice "22912");
         Sent (playlist_page_request "22867" "22912");
         ToScreen message])).
Proof.
  split.
  - apply (proj1 (missing_seqs_fall_back
                    (H := Sample.playlist_host "var playlistVideoSeqs = [];" false)
                    "http://www.vlive.tv/video/22867/playlist/22912"
                    "22867" "22912" (JBool false) "var playlistVideoSeqs = [];" []
                    eq_refl eq_refl eq_refl eq_refl)).
    apply (proj1 (search_none_iff "var playlistVideoSeqs = [];")). reflexivity.
  - apply (proj1 (missing_seqs_fall_back
                    (H := Sample.playlist_host "<p>playlistVideoSeqs</p>" false)
                    "http://www.vlive.tv/video/22867/playlist/22912"
                    "22867" "22912" (JBool false) "<p>playlistVideoSeqs</p>" []
                    eq_refl eq_refl eq_refl eq_refl)).
    apply (proj1 (search_none_iff "<p>playlistVideoSeqs</p>")). reflexivity.
Defined.

(** C5, as stated, fails: a page whose identifier list is empty, written
    with a blank between the brackets, gives a playlist without entries
    and not the reference to the single video. *)
Lemma blank_list_is_a_playlist :
  fst (_real_extract (H := Sample2.blank_list_host)
         "http://www.vlive.tv/video/22867/playlist/22912" [])
  = inr (playlist_result [] (JStr "22912") JNull)
  /\ playlist_result [] (JStr "22912") JNull <> video_ref "22867".
Proof.
  split; [reflexivity | apply playlist_result_is_no_ref].
Qed.

End PlaylistFacts.

(** ** Identifiers *)

Module IdFacts.
Import Py Re Host Props MFacts.

Lemma uint_digits d : all_in digit (NilEmpty.string_of_uint d) = true.
Proof. induction d; simpl; auto. Qed.

Lemma uint_nonempty d : d <> Decimal.Nil -> NilEmpty.string_of_uint d <> "".
Proof. destruct d; simpl; congruence. Qed.

Lemma string_of_pos_numeric p : numeric (string_of_Z (Z.pos p)).
Proof.
  unfold string_of_Z, numeric. cbn [Z.to_int NilZero.string_of_int].
  pose proof (Unsigned.to_uint_nonnil p) as Hp.
  unfold NilZero.string_of_uint.
  destruct (Pos.to_uint p) eqn:E; try congruence;
    (split; [apply uint_nonempty; discriminate | apply uint_digits]).
Qed.

Lemma string_of_Z_nonempty z : string_of_Z z <> "".
Proof.
  destruct z as [|p|p]; unfold string_of_Z; cbn [Z.to_int NilZero.string_of_int].
  - discriminate.
  - apply (string_of_pos_numeric p).
  - discriminate.
Qed.

Lemma compat_str_nonempty v : truthy v = true -> compat_str v <> "".
Proof.
  destruct v as [|[]|z|s|l|m]; simpl; try discriminate.
  - intros _. apply string_of_Z_nonempty.
  - destruct s; [discriminate|]. discriminate.
Qed.

Lemma compat_str_numeric v :
  truthy v = true -> numeric_seq v = true -> numeric (compat_str v).
Proof.
  destruct v as [|[]|z|s|l|m]; simpl; try discriminate.
  - destruct z as [|p|p]; try discriminate. intros _ _.
    apply string_of_pos_numeric.
  - intros Hs Hd. split; [|assumption]. destruct s; [discriminate|discriminate].
Qed.

Lemma video_ids_nonempty videos : Forall (fun id => id <> "") (video_ids videos).
Proof.
  induction videos as [|video videos IH]; simpl; [constructor|].
  destruct (get video "videoSeq") as [e|v]; [assumption|].
  destruct (truthy v) eqn:Hv; [|assumption].
  constructor; [now apply compat_str_nonempty | assumption].
Qed.

Lemma video_ids_numeric videos :
  forallb numeric_item videos = true -> Forall numeric (video_ids videos).
Proof.
  induction videos as [|video videos IH]; simpl; [constructor|].
  intros Hn. apply andb_prop in Hn as [Hv Hn]. unfold numeric_item in Hv.
  destruct (get video "videoSeq") as [e|v]; [discriminate|].
  destruct (truthy v) eqn:Ht; [|auto].
  constructor; [now apply compat_str_numeric | auto].
Qed.


Lemma string_of_nat_numeric z : (0 <=? z)%Z = true -> numeric (string_of_Z z).
Proof.
  destruct z as [|p|p]; try discriminate; intros _.
  - split; [discriminate | reflexivity].
  - apply string_of_pos_numeric.
Qed.

Lemma member_numeric v : numeric_member v = true -> numeric (compat_str v).
Proof.
  destruct v as [|b|z|s|l|m]; simpl; try discriminate.
  - apply string_of_nat_numeric.
  - intros Hs. apply andb_prop in Hs as [Hne Hd]. split; [|assumption].
    destruct s; [discriminate | discriminate].
Qed.

Lemma members_numeric items :
  forallb numeric_member items = true -> Forall numeric (map compat_str items).
Proof.
  induction items as [|v items IH]; simpl; [constructor|].
  intros Hn. apply andb_prop in Hn as [Hv Hn].
  constructor; [now apply member_numeric | auto].
Qed.

Lemma entries_of_ids items :
  map id_of (VLivePlaylistIE.entries_of items)
  = map (fun item_id => JStr (compat_str item_id)) items.
Proof.
  induction items as [|v items IH]; simpl; [reflexivity|].
  now rewrite <- IH.
Qed.

(** C9, as the code has it: an identifier matched from a single-video or
    playlist URL is a non-empty numeric string and a channel code accepted
    by the channel matcher is a non-empty string of digits and upper-case
    letters; an identifier emitted as an entry is the text of what the
    upstream sent, unchecked: in a channel listing it is non-empty, and
    numeric when every [videoSeq] of the page is a natural number or a
    string of digits; in a playlist it is numeric when every embedded item
    is a natural number or a non-empty string of digits. *)
Theorem identifiers_matched_or_upstream :
  (forall url id, _match_id VLiveIE._VALID_URL url = inr id -> numeric id)
  /\
  (forall url video_id playlist_id,
     VLivePlaylistIE.match_groups url = inr (video_id, playlist_id) ->
     numeric video_id /\ numeric playlist_id)
  /\
  (forall url code,
     _match_id VLiveChannelIE._VALID_URL url = inr code -> alphanumeric code)
  /\
  (forall videos entries es,
     VLiveChannelIE.add_entries videos entries = inr es ->
     es = (entries ++ map video_ref (video_ids videos))%list
     /\ Forall (fun id => id <> "") (video_ids videos)
     /\ (forallb numeric_item videos = true -> Forall numeric (video_ids videos)))
  /\
  (forall items,
     map id_of (VLivePlaylistIE.entries_of items)
     = map (fun item_id => JStr (compat_str item_id)) items
     /\ (forallb numeric_member items = true ->
         Forall numeric (map compat_str items))).
Proof.
  split; [|split; [|split; [|split]]].
  - apply UrlFacts.video_id_numeric.
  - apply UrlFacts.playlist_ids_numeric.
  - apply UrlFacts.channel_code_alphanumeric.
  - intros videos entries es Hes. split; [|split].
    + now apply ChannelFacts.add_entries_sound.
    + apply video_ids_nonempty.
    + apply video_ids_numeric.
  - intros items. split; [apply entries_of_ids | apply members_numeric].
Qed.

Lemma identifiers_matched_or_upstream_witness :
  numeric "1326" /\ alphanumeric "FCD4B"
  /\ Forall numeric (video_ids [Sample.item (JInt 5); Sample.item (JStr "9")]).
Proof.
  split; [|split].
  - apply (proj1 identifiers_matched_or_upstream
             "http://www.vlive.tv/video/1326" "1326" eq_refl).
  - apply (proj1 (proj2 (proj2 identifiers_matched_or_upstream))
             "http://channels.vlive.tv/FCD4B" "FCD4B" eq_refl).
  - apply (proj1 (proj2 (proj2 (proj2 identifiers_matched_or_upstream)))
             [Sample.item (JInt 5); Sample.item (JStr "9")] []
             [video_ref "5"; video_ref "9"] eq_refl).
    reflexivity.
Defined.

(** C9, as stated, fails: the listing of the sample channel has an entry
    whose identifier is [abc], handed on from the upstream as it came. *)
Lemma channel_entry_not_numeric :
  match fst (VLiveChannelIE._real_extract (H := Sample.channel_host) 4
               "http://channels.vlive.tv/FCD4B" []) with
  | inr (Some result) => entry_ids result
  | _ => []
  end = [JStr "5"; JStr "abc"; JStr "5"; JStr "9"]
  /\ ~ numeric "abc".
Proof.
  split; [reflexivity|]. intros [_ Hd]. discriminate.
Qed.

End IdFacts.


(** ** More on the URL patterns *)

Module UrlExtra.
Import Py Re Host Props ReFacts StrFacts UrlFacts.

Lemma re_search_sound (r : regex) (s : string) g :
  re_search r s = Some g ->
  exists before m rest, s = before ++ m ++ rest /\ Matches r m [] g.
Proof.
  induction s as [|c s IH]; cbn [re_search].
  - destruct (re_match r "") as [g'|] eqn:E; [|discriminate].
    intros Hg; inversion Hg; subst g'.
    apply re_match_sound in E as (m & rest & E & M).
    exists "", m, rest; auto.
  - destruct (re_match r (String c s)) as [g'|] eqn:E.
    + intros Hg; inversion Hg; subst g'.
      apply re_match_sound in E as (m & rest & E & M).
      exists "", m, rest; auto.
    + intros Hg. apply IH in Hg as (before & m & rest & -> & M).
      exists (String c before), m, rest; auto.
Qed.

(** X13: a channel URL of either form ([channels.vlive.tv/CODE], or
    [vlive.tv/channel/CODE] with or without [www.] or [m.]), over http or
    https, yields the run of digits and upper-case letters as its code. *)
Theorem channel_url_same_code (scheme site code rest : string) :
  In scheme ["http"; "https"] ->
  In site ["channels.vlive.tv"; "vlive.tv/channel"; "www.vlive.tv/channel";
           "m.vlive.tv/channel"] ->
  alphanumeric code -> starts_in (CUnion digit upper) rest = false ->
  _match_id VLiveChannelIE._VALID_URL
    (scheme ++ "://" ++ site ++ "/" ++ code ++ rest) = inr code.
Proof.
  intros Hs Hsite [Hne Hc] Hrest.
  unfold _match_id, re_match, VLiveChannelIE._VALID_URL.
  simpl in Hs, Hsite.
  destruct Hs as [<-|[<-|[]]]; destruct Hsite as [<-|[<-|[<-|[<-|[]]]]]; simpl;
    now rewrite (plus_k_greedy (CUnion digit upper) code rest _ [("id", code)]).
Qed.

(** X14: a playlist URL yields the digits after [/video/] as the video
    and the digits after [/playlist/] as the playlist. *)
Theorem playlist_url_ids (scheme sub video_id playlist_id rest : string) :
  In scheme ["http"; "https"] -> In sub [""; "www."; "m."] ->
  numeric video_id -> numeric playlist_id -> starts_in digit rest = false ->
  VLivePlaylistIE.match_groups
    (scheme ++ "://" ++ sub ++ "vlive.tv/video/" ++ video_id ++ "/playlist/"
       ++ playlist_id ++ rest)
  = inr (video_id, playlist_id).
Proof.
  intros Hs Hsub [Hne1 Hd1] [Hne2 Hd2] Hrest.
  unfold VLivePlaylistIE.match_groups, re_match, VLivePlaylistIE._VALID_URL.
  simpl in Hs, Hsub.
  destruct Hs as [<-|[<-|[]]]; destruct Hsub as [<-|[<-|[<-|[]]]]; simpl.
  all: rewrite (plus_k_greedy digit video_id ("/playlist/" ++ playlist_id ++ rest) _
                  [("id", playlist_id); ("video_id", video_id)]); auto.
  all: simpl; now rewrite (plus_k_greedy digit playlist_id rest _
                  [("id", playlist_id); ("video_id", video_id)]).
Qed.

Lemma channel_url_same_code_witness :
  _match_id VLiveChannelIE._VALID_URL "http://channels.vlive.tv/FCD4B" = inr "FCD4B"
  /\ _match_id VLiveChannelIE._VALID_URL "https://www.vlive.tv/channel/FCD4Bx"
     = inr "FCD4B".
Proof.
  split.
  - apply (channel_url_same_code "http" "channels.vlive.tv" "FCD4B" "");
      simpl; auto; split; [discriminate | reflexivity].
  - apply (channel_url_same_code "https" "www.vlive.tv/channel" "FCD4B" "x");
      simpl; auto; split; [discriminate | reflexivity].
Defined.

Lemma playlist_url_ids_witness :
  VLivePlaylistIE.match_groups "https://www.vlive.tv/video/117956/playlist/117963"
  = inr ("117956", "117963").
Proof.
  apply (playlist_url_ids "https" "www." "117956" "117963" "");
    simpl; auto; (split; [discriminate | reflexivity]).
Defined.

(** X15: whatever the playlist pattern accepts, the single-video pattern
    accepts too, with the playlist's video as its identifier. *)
Theorem playlist_url_is_video_url url video_id playlist_id :
  VLivePlaylistIE.match_groups url = inr (video_id, playlist_id) ->
  _match_id VLiveIE._VALID_URL url = inr video_id.
Proof.
  unfold VLivePlaylistIE.match_groups.
  destruct (re_match _ url) as [g|] eqn:Hm; [|discriminate].
  apply re_match_sound in Hm as (m & rest & -> & M).
  unfold VLivePlaylistIE._VALID_URL in M.
  invert_matches; simpl; intros E; inversion E; subst;
    repeat rewrite append_assoc; simpl;
    unfold _match_id, re_match, VLiveIE._VALID_URL; simpl.
  all: match goal with
       | |- context [plus_k digit (?d ++ ?t) _] =>
           rewrite (plus_k_greedy digit d t _ [("id", d)]); auto
       end.
Qed.

(** X16: an URL that the channel pattern accepts is refused by the
    single-video pattern and by the playlist pattern. *)
Theorem channel_url_is_no_video_url url code :
  _match_id VLiveChannelIE._VALID_URL url = inr code ->
  _match_id VLiveIE._VALID_URL url = inl AssertionError
  /\ VLivePlaylistIE.match_groups url = inl AttributeError.
Proof.
  unfold _match_id at 1.
  destruct (re_match VLiveChannelIE._VALID_URL url) as [g|] eqn:Hm; [|discriminate].
  intros _.
  apply re_match_sound in Hm as (m & rest & -> & M).
  unfold VLiveChannelIE._VALID_URL in M.
  split.
  - unfold _match_id.
    destruct (re_match VLiveIE._VALID_URL _) as [g'|] eqn:Hv; [|reflexivity].
    exfalso. apply re_match_sound in Hv as (m' & rest' & E & M').
    unfold VLiveIE._VALID_URL in M'.
    invert_matches; repeat rewrite append_assoc in E; simpl in E; discriminate E.
  - unfold VLivePlaylistIE.match_groups.
    destruct (re_match VLivePlaylistIE._VALID_URL _) as [g'|] eqn:Hv; [|reflexivity].
    exfalso. apply re_match_sound in Hv as (m' & rest' & E & M').
    unfold VLivePlaylistIE._VALID_URL in M'.
    invert_matches; repeat rewrite append_assoc in E; simpl in E; discriminate E.
Qed.

Lemma playlist_url_is_video_url_witness :
  _match_id VLiveIE._VALID_URL "http://www.vlive.tv/video/22867/playlist/22912"
  = inr "22867".
Proof.
  apply (playlist_url_is_video_url
           "http://www.vlive.tv/video/22867/playlist/22912" "22867" "22912").
  reflexivity.
Defined.

Lemma channel_url_is_no_video_url_witness :
  _match_id VLiveIE._VALID_URL "https://www.vlive.tv/channel/FCD4B"
  = inl AssertionError.
Proof.
  apply (proj1 (channel_url_is_no_video_url
                  "https://www.vlive.tv/channel/FCD4B" "FCD4B" eq_refl)).
Defined.

Lemma entries_of_refs items :
  VLivePlaylistIE.entries_of items = map (fun item_id => video_ref (compat_str item_id)) items.
Proof.
  unfold VLivePlaylistIE.entries_of. apply map_ext. intros v.
  unfold video_ref, VLivePlaylistIE._VIDEO_URL_TEMPLATE. cbn [fmt_s].
  now rewrite append_nil_r.
Qed.

(** X17: the reference to a video names the single-video extractor and
    carries an URL that this extractor's pattern reads back: the
    identifier's leading digits are what it extracts, and an identifier
    that does not start with a digit gives an URL it refuses. *)
Theorem entry_url_resolves (id : string) :
  get (video_ref id) "ie_key" = inr (JStr VLiveIE.ie_key)
  /\ get (video_ref id) "id" = inr (JStr id)
  /\ exists url,
       get (video_ref id) "url" = inr (JStr url)
       /\ (forall d rest,
             id = d ++ rest -> numeric d -> starts_in digit rest = false ->
             _match_id VLiveIE._VALID_URL url = inr d)
       /\ (starts_in digit id = false ->
           _match_id VLiveIE._VALID_URL url = inl AssertionError).
Proof.
  split; [reflexivity|]. split; [reflexivity|].
  exists ("http://www.vlive.tv/video/" ++ id). split; [reflexivity|]. split.
  - intros d rest -> [Hne Hd] Hrest.
    unfold _match_id, re_match, VLiveIE._VALID_URL. simpl.
    now rewrite (plus_k_greedy digit d rest _ [("id", d)]).
  - intros Hid. unfold _match_id.
    destruct (re_match VLiveIE._VALID_URL _) as [g|] eqn:Hm; [|reflexivity].
    exfalso. apply re_match_sound in Hm as (m & rest & E & M).
    unfold VLiveIE._VALID_URL in M.
    invert_matches; repeat rewrite append_assoc in E; simpl in E;
      try discriminate E.
    injection E as E. subst id.
    match goal with
    | Hn : ?d <> "", Ha : all_in digit ?d = true |- _ =>
        destruct d as [|c d]; [congruence|];
        cbn [append starts_in all_in] in Hid, Ha;
        apply andb_prop in Ha as [Hc _]; congruence
    end.
Qed.


Lemma entry_url_resolves_witness :
  exists url,
    get (video_ref "12ab") "url" = inr (JStr url)
    /\ _match_id VLiveIE._VALID_URL url = inr "12".
Proof.
  destruct (entry_url_resolves "12ab") as (_ & _ & url & Hurl & Hyes & _).
  exists url. split; [exact Hurl|].
  apply (Hyes "12" "ab" eq_refl); [split; [discriminate | reflexivity] | reflexivity].
Defined.

Lemma seqs_capture_shape webpage :
  _search_regex VLivePlaylistIE.playlist_seqs_re webpage = JNull
  \/ exists body,
       _search_regex VLivePlaylistIE.playlist_seqs_re webpage
       = JStr ("[" ++ body ++ "]")
       /\ body <> "" /\ all_in (CNot (CChar "]")) body = true.
Proof.
  unfold _search_regex.
  destruct (re_search _ webpage) as [g|] eqn:Hs; [|now left].
  right. apply re_search_sound in Hs as (before & m & rest & _ & M).
  unfold VLivePlaylistIE.playlist_seqs_re in M. invert_matches.
  match goal with
  | Hn : ?b <> "", Ha : all_in (CNot _) ?b = true |- _ => exists b
  end.
  cbn [group String.eqb Ascii.eqb Bool.eqb]. auto.
Qed.

(** X18: what the search for the identifier list returns is [None] or a
    bracketed text with at least one character and no closing bracket
    between the brackets; it is never the empty string. *)
Theorem playlist_seqs_capture webpage :
  (_search_regex VLivePlaylistIE.playlist_seqs_re webpage = JNull
   \/ exists body,
        _search_regex VLivePlaylistIE.playlist_seqs_re webpage
        = JStr ("[" ++ body ++ "]")
        /\ body <> "" /\ all_in (CNot (CChar "]")) body = true)
  /\ _search_regex VLivePlaylistIE.playlist_seqs_re webpage <> JStr "".
Proof.
  split; [apply seqs_capture_shape|].
  destruct (seqs_capture_shape webpage) as [-> | (body & -> & _)]; discriminate.
Qed.

End UrlExtra.

(** ** More on single videos and login *)

Module VideoExtra.
Import Py Re Host Props Props2 MFacts VLiveIE VideoFacts LoginFacts.

Lemma exc_bind_ok {A B} (x : exc A) (k : A -> exc B) b :
  exc_bind x k = inr b -> exists a, x = inr a /\ k a = inr b.
Proof. destruct x as [e|a]; simpl; [discriminate | eauto]. Qed.

Section Video.
Context `{InfoExtractor}.

Lemma dispatch_typed video_id post video video_type tr :
  subscript post "officialVideo" = inr video ->
  get video "type" = inr video_type ->
  dispatch video_id post tr
  = (if eq_str video_type "VOD" then
       r <- _call_api "video/v1.0/vod/%s/inkey" video_id None ;;
       inkey <- lift (subscript r "inkey") ;;
       vod_id <- lift (subscript video "vodId") ;;
       common <- lift (get_common_fields post video) ;;
       info <- _extract_video_info video_id vod_id inkey ;;
       ret (merge_dicts common info)
     else if eq_str video_type "LIVE" then
       status <- lift (get video "status") ;;
       if eq_str status "ON_AIR" then
         r <- _call_api "old/v3/live/%s/playInfo" video_id None ;;
         stream_url <- lift (let? res := subscript r "result" in
                             subscript res "adaptiveStreamUrl") ;;
         formats <- _extract_m3u8_formats stream_url video_id "mp4" ;;
         info <- lift (get_common_fields post video) ;;
         title <- lift (subscript video "title") ;;
         match info with
         | JObj d =>
             ret (JObj (dict_update d [("title", _live_title title);
                                       ("id", JStr video_id);
                                       ("formats", formats);
                                       ("is_live", JBool true)]))
         | _ => raise (Raised AttributeError)
         end
       else if eq_str status "ENDED" then
         raise (ExtractorError "Uploading for replay. Please wait..." true NoCause)
       else if eq_str status "RESERVED" then
         raise (ExtractorError "Coming soon!" true NoCause)
       else
         expose <- lift (get video "exposeStatus") ;;
         if eq_str expose "CANCEL" then
           raise (ExtractorError
                    "We are sorry, but the live broadcast has been canceled." true
                    NoCause)
         else unknown_status status
     else ret JNull) tr.
Proof.
  intros Hvideo Htype. unfold dispatch.
  now rewrite (bind_lift _ _ _ _ Hvideo), (bind_lift _ _ _ _ Htype).
Qed.

(** X2: for a VOD record, whatever its status and exposeStatus, the access
    key is fetched and the stream extractor is called with the video id,
    the record's [vodId] and that very key; what it returns is merged
    under the common fields, and what it raises is raised. *)
Theorem vod_delegates url video_id post video tr tr1 r tr2 inkey vod_id common :
  _match_id _VALID_URL url = inr video_id ->
  call_post video_id tr = (inr post, tr1) ->
  subscript post "officialVideo" = inr video ->
  get video "type" = inr (JStr "VOD") ->
  _call_api "video/v1.0/vod/%s/inkey" video_id None tr1 = (inr r, tr2) ->
  subscript r "inkey" = inr inkey ->
  subscript video "vodId" = inr vod_id ->
  get_common_fields post video = inr common ->
  _real_extract url tr
  = match _extract_video_info video_id vod_id inkey tr2 with
    | (inl e, tr3) => (inl e, tr3)
    | (inr info, tr3) => (inr (merge_dicts common info), tr3)
    end.
Proof.
  intros Hid Hpost Hvideo Htype Hkey Hinkey Hvod Hcommon.
  rewrite (real_extract_dispatch _ _ _ _ _ Hid Hpost).
  rewrite (dispatch_typed _ _ _ _ _ Hvideo Htype).
  replace (eq_str (JStr "VOD") "VOD") with true by reflexivity. cbv iota.
  rewrite (bind_ok _ _ _ _ _ Hkey), (bind_lift _ _ _ _ Hinkey),
    (bind_lift _ _ _ _ Hvod), (bind_lift _ _ _ _ Hcommon).
  unfold bind, ret.
  destruct (_extract_video_info video_id vod_id inkey tr2) as [[e|info] tr3];
    reflexivity.
Qed.

(** X3: for a VOD record the access key is asked for before [vodId] is
    read: an answer without [inkey], or a record without [vodId], raises
    the lookup error after that request, and the stream extractor is not
    called. *)
Theorem vod_missing_key url video_id post video tr tr1 r tr2 :
  _match_id _VALID_URL url = inr video_id ->
  call_post video_id tr = (inr post, tr1) ->
  subscript post "officialVideo" = inr video ->
  get video "type" = inr (JStr "VOD") ->
  _call_api "video/v1.0/vod/%s/inkey" video_id None tr1 = (inr r, tr2) ->
  (forall e, subscript r "inkey" = inl e ->
             _real_extract url tr = (inl (Raised e), tr2))
  /\
  (forall inkey e, subscript r "inkey" = inr inkey ->
                   subscript video "vodId" = inl e ->
                   _real_extract url tr = (inl (Raised KeyError), tr2)).
Proof.
  intros Hid Hpost Hvideo Htype Hkey.
  rewrite (real_extract_dispatch _ _ _ _ _ Hid Hpost).
  rewrite (dispatch_typed _ _ _ _ _ Hvideo Htype).
  replace (eq_str (JStr "VOD") "VOD") with true by reflexivity. cbv iota.
  rewrite (bind_ok _ _ _ _ _ Hkey). split.
  - intros e He. now rewrite (bind_lift_fail _ _ _ _ He).
  - intros inkey e Hinkey Hvod. rewrite (bind_lift _ _ _ _ Hinkey).
    apply bind_lift_fail.
    destruct video; try discriminate. simpl in *.
    now destruct (assoc "vodId" items).
Qed.

(** X4: only the metadata call is guarded.  A failure of the access-key
    call of a VOD record, or of the play-info call of a broadcast on air,
    reaches the caller as it is, a 403 included. *)
Theorem only_metadata_call_guarded url video_id post video tr tr1 e tr2 :
  _match_id _VALID_URL url = inr video_id ->
  call_post video_id tr = (inr post, tr1) ->
  subscript post "officialVideo" = inr video ->
  (get video "type" = inr (JStr "VOD") ->
   _call_api "video/v1.0/vod/%s/inkey" video_id None tr1 = (inl e, tr2) ->
   _real_extract url tr = (inl e, tr2))
  /\
  (get video "type" = inr (JStr "LIVE") ->
   get video "status" = inr (JStr "ON_AIR") ->
   _call_api "old/v3/live/%s/playInfo" video_id None tr1 = (inl e, tr2) ->
   _real_extract url tr = (inl e, tr2)).
Proof.
  intros Hid Hpost Hvideo.
  rewrite (real_extract_dispatch _ _ _ _ _ Hid Hpost). split.
  - intros Htype Hcall.
    rewrite (dispatch_typed _ _ _ _ _ Hvideo Htype).
    replace (eq_str (JStr "VOD") "VOD") with true by reflexivity. cbv iota.
    now apply bind_fail.
  - intros Htype Hstatus Hcall.
    rewrite (dispatch_typed _ _ _ _ _ Hvideo Htype).
    replace (eq_str (JStr "LIVE") "VOD") with false by reflexivity.
    replace (eq_str (JStr "LIVE") "LIVE") with true by reflexivity. cbv iota.
    rewrite (bind_lift _ _ _ _ Hstatus).
    replace (eq_str (JStr "ON_AIR") "ON_AIR") with true by reflexivity. cbv iota.
    now apply bind_fail.
Qed.

Lemma common_fields_obj post video common :
  get_common_fields post video = inr common -> exists d, common = JObj d.
Proof.
  unfold get_common_fields. intros E.
  repeat (apply exc_bind_ok in E as (? & _ & E)).
  inversion E. eauto.
Qed.

Lemma dispatch_on_air video_id post video tr :
  subscript post "officialVideo" = inr video ->
  get video "type" = inr (JStr "LIVE") ->
  get video "status" = inr (JStr "ON_AIR") ->
  dispatch video_id post tr
  = (r <- _call_api "old/v3/live/%s/playInfo" video_id None ;;
     stream_url <- lift (let? res := subscript r "result" in
                         subscript res "adaptiveStreamUrl") ;;
     formats <- _extract_m3u8_formats stream_url video_id "mp4" ;;
     info <- lift (get_common_fields post video) ;;
     title <- lift (subscript video "title") ;;
     match info with
     | JObj d =>
         ret (JObj (dict_update d [("title", _live_title title);
                                   ("id", JStr video_id);
                                   ("formats", formats);
                                   ("is_live", JBool true)]))
     | _ => raise (Raised AttributeError)
     end) tr.
Proof.
  intros Hvideo Htype Hstatus. unfold dispatch.
  rewrite (bind_lift _ _ _ _ Hvideo), (bind_lift _ _ _ _ Htype).
  replace (eq_str (JStr "LIVE") "VOD") with false by reflexivity.
  replace (eq_str (JStr "LIVE") "LIVE") with true by reflexivity. cbv iota.
  now rewrite (bind_lift _ _ _ _ Hstatus).
Qed.

(** X5: for a broadcast on air the result is marked live, carries the
    video id and the formats of the stream, and its title is the live
    title of the record's; every other field is the common one. *)
Theorem on_air_is_live url video_id post video tr tr1 r tr2 res stream_url
        formats tr3 common title :
  _match_id _VALID_URL url = inr video_id ->
  call_post video_id tr = (inr post, tr1) ->
  subscript post "officialVideo" = inr video ->
  get video "type" = inr (JStr "LIVE") ->
  get video "status" = inr (JStr "ON_AIR") ->
  _call_api "old/v3/live/%s/playInfo" video_id None tr1 = (inr r, tr2) ->
  subscript r "result" = inr res ->
  subscript res "adaptiveStreamUrl" = inr stream_url ->
  _extract_m3u8_formats stream_url video_id "mp4" tr2 = (inr formats, tr3) ->
  get_common_fields post video = inr common ->
  subscript video "title" = inr title ->
  exists info,
    _real_extract url tr = (inr info, tr3)
    /\ get info "is_live" = inr (JBool true)
    /\ get info "id" = inr (JStr video_id)
    /\ get info "formats" = inr formats
    /\ get info "title" = inr (_live_title title)
    /\ (forall k, ~ In k live_keys -> get info k = get common k).
Proof.
  intros Hid Hpost Hvideo Htype Hstatus Hcall Hres Hurl Hformats Hcommon Htitle.
  rewrite (real_extract_dispatch _ _ _ _ _ Hid Hpost).
  rewrite (dispatch_on_air _ _ _ _ Hvideo Htype Hstatus).
  rewrite (bind_ok _ _ _ _ _ Hcall).
  rewrite (bind_lift _ _ _ stream_url) by (now rewrite Hres).
  rewrite (bind_ok _ _ _ _ _ Hformats), (bind_lift _ _ _ _ Hcommon),
    (bind_lift _ _ _ _ Htitle).
  destruct (common_fields_obj _ _ _ Hcommon) as [d ->].
  eexists. split; [reflexivity|].
  unfold dict_update. cbn [fold_left fst snd get get_default].
  repeat split; repeat rewrite assoc_dict_set; try reflexivity.
  intros k Hk. repeat rewrite assoc_dict_set.
  assert (Hne : forall k', In k' live_keys -> (k' =? k) = false).
  { intros k' Hin. apply String.eqb_neq. intros ->. contradiction. }
  rewrite (Hne "is_live"), (Hne "formats"), (Hne "id"), (Hne "title");
    simpl; auto 6.
Qed.

(** X6: the common fields do without a title, the live branch does not:
    a broadcast on air whose record has no [title] raises [KeyError], and
    only after the play info and the formats have been fetched. *)
Theorem on_air_needs_title url video_id post video tr tr1 r tr2 res stream_url
        formats tr3 common e :
  _match_id _VALID_URL url = inr video_id ->
  call_post video_id tr = (inr post, tr1) ->
  subscript post "officialVideo" = inr video ->
  get video "type" = inr (JStr "LIVE") ->
  get video "status" = inr (JStr "ON_AIR") ->
  _call_api "old/v3/live/%s/playInfo" video_id None tr1 = (inr r, tr2) ->
  subscript r "result" = inr res ->
  subscript res "adaptiveStreamUrl" = inr stream_url ->
  _extract_m3u8_formats stream_url video_id "mp4" tr2 = (inr formats, tr3) ->
  get_common_fields post video = inr common ->
  subscript video "title" = inl e ->
  get common "title" = inr JNull
  /\ _real_extract url tr = (inl (Raised KeyError), tr3).
Proof.
  intros Hid Hpost Hvideo Htype Hstatus Hcall Hres Hurl Hformats Hcommon Htitle.
  assert (Hv : exists m, video = JObj m /\ assoc "title" m = None).
  { destruct video; try discriminate. simpl in Htitle.
    destruct (assoc "title" items) eqn:E; [discriminate|]. eauto. }
  destruct Hv as (m & -> & Hm). split.
  - unfold get_common_fields in Hcommon.
    apply exc_bind_ok in Hcommon as (c0 & _ & Hcommon).
    simpl in Hcommon. rewrite Hm in Hcommon.
    repeat (apply exc_bind_ok in Hcommon as (? & _ & Hcommon)).
    now inversion Hcommon.
  - rewrite (real_extract_dispatch _ _ _ _ _ Hid Hpost).
    rewrite (dispatch_on_air _ _ _ _ Hvideo Htype Hstatus).
    rewrite (bind_ok _ _ _ _ _ Hcall).
    rewrite (bind_lift _ _ _ stream_url) by (now rewrite Hres).
    rewrite (bind_ok _ _ _ _ _ Hformats), (bind_lift _ _ _ _ Hcommon).
    apply bind_lift_fail. simpl. now rewrite Hm.
Qed.


(** X8: a metadata answer without [officialVideo] raises the lookup
    error, and one whose [officialVideo] is no object raises
    [AttributeError]; in both cases after the one metadata request. *)
Theorem malformed_post url video_id post tr tr1 :
  _match_id _VALID_URL url = inr video_id ->
  call_post video_id tr = (inr post, tr1) ->
  (forall e, subscript post "officialVideo" = inl e ->
             _real_extract url tr = (inl (Raised e), tr1))
  /\
  (forall video, subscript post "officialVideo" = inr video ->
                 is_obj video = false ->
                 _real_extract url tr = (inl (Raised AttributeError), tr1)).
Proof.
  intros Hid Hpost. rewrite (real_extract_dispatch _ _ _ _ _ Hid Hpost).
  unfold dispatch. split.
  - intros e He. now rewrite (bind_lift_fail _ _ _ _ He).
  - intros video Hvideo Hobj. rewrite (bind_lift _ _ _ _ Hvideo).
    apply bind_lift_fail. destruct video; simpl in *; congruence.
Qed.

(** X9: on a 403 whose body cannot be read, the refusal itself is lost: a
    body that is no JSON raises [ValueError], and a body without
    [message] raises the lookup error, instead of the error of the call
    or the login-required error. *)
Theorem refusal_body_unreadable url video_id tr tr1 msg expected body :
  _match_id _VALID_URL url = inr video_id ->
  call_post video_id tr
  = (inl (ExtractorError msg expected (HTTPError 403 body)), tr1) ->
  (json_loads body = None ->
   _real_extract url tr = (inl (Raised ValueError), tr1))
  /\
  (forall v e, json_loads body = Some v -> subscript v "message" = inl e ->
               _real_extract url tr = (inl (Raised e), tr1)).
Proof.
  intros Hid Hcall. rewrite (real_extract_handler _ _ _ _ _ Hid Hcall).
  unfold on_metadata_error. simpl. split.
  - intros ->. reflexivity.
  - intros v e -> He. unfold bind at 1. now rewrite (bind_lift_fail _ _ _ _ He).
Qed.

(** X11: a LIVE record whose status is no string (missing, null, a
    number) is canceled when its exposeStatus is CANCEL, and otherwise
    raises [TypeError] where the message of the unknown status is built. *)
Theorem status_not_a_string url video_id post video status expose tr tr1 :
  _match_id _VALID_URL url = inr video_id ->
  call_post video_id tr = (inr post, tr1) ->
  subscript post "officialVideo" = inr video ->
  get video "type" = inr (JStr "LIVE") ->
  get video "status" = inr status ->
  isinstance status TStr = false ->
  get video "exposeStatus" = inr expose ->
  _real_extract url tr
  = (if eq_str expose "CANCEL"
     then inl (ExtractorError
                 "We are sorry, but the live broadcast has been canceled." true
                 NoCause)
     else inl (Raised TypeError), tr1).
Proof.
  intros Hid Hpost Hvideo Htype Hstatus Hstr Hexpose.
  rewrite (real_extract_dispatch _ _ _ _ _ Hid Hpost). unfold dispatch.
  rewrite (bind_lift _ _ _ _ Hvideo), (bind_lift _ _ _ _ Htype).
  replace (eq_str (JStr "LIVE") "VOD") with false by reflexivity.
  replace (eq_str (JStr "LIVE") "LIVE") with true by reflexivity. cbv iota.
  rewrite (bind_lift _ _ _ _ Hstatus).
  assert (Hno : forall lit, eq_str status lit = false)
    by (intros lit; destruct status; simpl in *; congruence).
  rewrite !Hno. rewrite (bind_lift _ _ _ _ Hexpose).
  destruct (eq_str expose "CANCEL"); [reflexivity|].
  destruct status; try reflexivity; discriminate.
Qed.

(** X12: login stops at the first request that fails and raises its
    error: when the login page cannot be fetched the credentials are never
    sent, and when the form fails the session info is never asked for. *)
Theorem login_stops_at_first_failure email password tr e :
  _get_login_info = (Some email, Some password) ->
  (page_of tr login_page_request = inl e ->
   _login tr = (inl e, (tr ++ [Sent login_page_request])%list))
  /\
  (forall page,
     page_of tr login_page_request = inr page ->
     page_of (tr ++ [Sent login_page_request])%list
       (login_form_request email password) = inl e ->
     _login tr
     = (inl e, (tr ++ [Sent login_page_request;
                       Sent (login_form_request email password)])%list))
  /\
  (forall page reply,
     page_of tr login_page_request = inr page ->
     page_of (tr ++ [Sent login_page_request])%list
       (login_form_request email password) = inr reply ->
     json_of (tr ++ [Sent login_page_request;
                     Sent (login_form_request email password)])%list
       login_info_request = inl e ->
     _login tr
     = (inl e, (tr ++ [Sent login_page_request;
                       Sent (login_form_request email password);
                       Sent login_info_request])%list)).
Proof.
  intros Hinfo. unfold _login. rewrite Hinfo.
  unfold is_logged_in, _request_webpage, _download_webpage, _download_json,
    send_page, bind.
  change (RequestWebpage LOGIN_URL JNull "Downloading login cookies")
    with login_page_request.
  change (DownloadWebpage LOGIN_URL JNull (Some "Logging in")
            (Some [("email", email); ("pwd", password)])
            [("Referer", LOGIN_URL);
             ("Content-Type", "application/x-www-form-urlencoded")])
    with (login_form_request email password).
  change (DownloadJson "https://www.vlive.tv/auth/loginInfo" JNull
            "Downloading login info" [("Referer", "https://www.vlive.tv/home")] [])
    with login_info_request.
  split; [|split].
  - intros ->. reflexivity.
  - intros page -> H2. cbn [ret]. rewrite H2. now rewrite <- app_assoc.
  - intros page reply -> H2 H3. cbn [ret]. rewrite H2.
    rewrite <- !app_assoc. cbn [app]. now rewrite H3.
Qed.

End Video.

Lemma vod_delegates_witness :
  exists info,
    fst (_real_extract
           (H := Sample.post_host (Sample2.answer "VOD" "ENDED" (JObj [])))
           "http://www.vlive.tv/video/1326" [])
    = inr info.
Proof.
  eexists.
  rewrite (vod_delegates
             (H := Sample.post_host (Sample2.answer "VOD" "ENDED" (JObj [])))
             "http://www.vlive.tv/video/1326" "1326"
             (Sample2.answer "VOD" "ENDED" (JObj [])) _ [] _
             (Sample2.answer "VOD" "ENDED" (JObj [])) _ (JStr "K1") (JStr "V1") _
             eq_refl eq_refl eq_refl eq_refl eq_refl eq_refl eq_refl eq_refl).
  reflexivity.
Defined.

Lemma vod_missing_key_witness :
  fst (_real_extract
         (H := Sample.post_host
                 (JObj [("officialVideo", JObj [("type", JStr "VOD")]);
                        ("inkey", JStr "K1")]))
         "http://www.vlive.tv/video/1326" [])
  = inl (Raised KeyError).
Proof.
  rewrite (proj2 (vod_missing_key
                    (H := Sample.post_host
                            (JObj [("officialVideo", JObj [("type", JStr "VOD")]);
                                   ("inkey", JStr "K1")]))
                    "http://www.vlive.tv/video/1326" "1326" _ _ [] _ _ _
                    eq_refl eq_refl eq_refl eq_refl eq_refl)
             (JStr "K1") KeyError eq_refl eq_refl).
  reflexivity.
Defined.

Lemma only_metadata_call_guarded_witness :
  exists tr,
    _real_extract
      (H := Sample.host
              (fun r => match r with
                        | DownloadJson _ _ "Downloading officialVideoPost JSON metadata" _ _ =>
                            inr (Sample2.answer "VOD" "ENDED" (JObj []))
                        | _ => inl (ExtractorError "HTTP Error 403" false
                                      (HTTPError 403 Sample.subscribers_only))
                        end)
              "" (JObj []) (None, None))
      "http://www.vlive.tv/video/1326" []
    = (inl (ExtractorError "HTTP Error 403" false
              (HTTPError 403 Sample.subscribers_only)), tr).
Proof.
  eexists.
  apply (proj1 (only_metadata_call_guarded
                  (H := Sample.host
                          (fun r => match r with
                                    | DownloadJson _ _ "Downloading officialVideoPost JSON metadata" _ _ =>
                                        inr (Sample2.answer "VOD" "ENDED" (JObj []))
                                    | _ => inl (ExtractorError "HTTP Error 403" false
                                                  (HTTPError 403 Sample.subscribers_only))
                                    end)
                          "" (JObj []) (None, None))
                  "http://www.vlive.tv/video/1326" "1326" _ _ [] _ _ _
                  eq_refl eq_refl eq_refl));
    reflexivity.
Defined.

Lemma on_air_is_live_witness :
  exists info,
    fst (_real_extract
           (H := Sample.post_host (Sample2.answer "LIVE" "ON_AIR" (JObj [])))
           "http://www.vlive.tv/video/1326" [])
    = inr info
    /\ get info "is_live" = inr (JBool true)
    /\ get info "channel" = inr (JStr "N").
Proof.
  destruct (on_air_is_live
              (H := Sample.post_host (Sample2.answer "LIVE" "ON_AIR" (JObj [])))
              "http://www.vlive.tv/video/1326" "1326"
              (Sample2.answer "LIVE" "ON_AIR" (JObj [])) _ [] _
              (Sample2.answer "LIVE" "ON_AIR" (JObj [])) _ _ _ _ _ _ _
              eq_refl eq_refl eq_refl eq_refl eq_refl eq_refl eq_refl eq_refl
              eq_refl eq_refl eq_refl)
    as (info & Hrun & Hlive & _ & _ & _ & Hrest).
  exists info. split; [now rewrite Hrun|]. split; [exact Hlive|].
  rewrite (Hrest "channel"); [reflexivity|].
  unfold live_keys; simpl; intros [E|[E|[E|[E|[]]]]]; discriminate E.
Defined.

Lemma on_air_needs_title_witness :
  fst (_real_extract (H := Sample.post_host Sample2.untitled)
         "http://www.vlive.tv/video/1326" [])
  = inl (Raised KeyError).
Proof.
  rewrite (proj2 (on_air_needs_title (H := Sample.post_host Sample2.untitled)
                    "http://www.vlive.tv/video/1326" "1326" Sample2.untitled
                    _ [] _ Sample2.untitled _ _ _ _ _ _ KeyError
                    eq_refl eq_refl eq_refl eq_refl eq_refl eq_refl eq_refl eq_refl
                    eq_refl eq_refl eq_refl)).
  reflexivity.
Defined.


Lemma malformed_post_witness :
  fst (_real_extract (H := Sample.post_host (JObj [("officialVideo", JNull)]))
         "http://www.vlive.tv/video/1326" [])
  = inl (Raised AttributeError).
Proof.
  rewrite (proj2 (malformed_post
                    (H := Sample.post_host (JObj [("officialVideo", JNull)]))
                    "http://www.vlive.tv/video/1326" "1326" _ [] _ eq_refl eq_refl)
             JNull eq_refl eq_refl).
  reflexivity.
Defined.

Lemma refusal_body_unreadable_witness :
  fst (_real_extract
         (H := Sample.refusing_host
                 (ExtractorError "HTTP Error 403" false (HTTPError 403 "<html>")))
         "http://www.vlive.tv/video/1326" [])
  = inl (Raised ValueError).
Proof.
  rewrite (proj1 (refusal_body_unreadable
                    (H := Sample.refusing_host
                            (ExtractorError "HTTP Error 403" false
                               (HTTPError 403 "<html>")))
                    "http://www.vlive.tv/video/1326" "1326" [] _
                    "HTTP Error 403" false "<html>" eq_refl eq_refl) eq_refl).
  reflexivity.
Defined.

Lemma unknown_live_status_witness :
  fst (_real_extract (H := Sample.post_host (Sample.post "LIVE" "PAUSED" "NORMAL"))
         "http://www.vlive.tv/video/1326" [])
  = inl (ExtractorError "Unknown status PAUSED" false NoCause).
Proof.
  rewrite (unknown_live_status
             (H := Sample.post_host (Sample.post "LIVE" "PAUSED" "NORMAL"))
             "http://www.vlive.tv/video/1326" "1326" _ _ [] _ "PAUSED"
             (JStr "NORMAL") eq_refl eq_refl eq_refl eq_refl eq_refl);
    [reflexivity | discriminate | discriminate | discriminate
     | reflexivity | reflexivity].
Defined.

Lemma status_not_a_string_witness :
  fst (_real_extract
         (H := Sample.post_host
                 (JObj [("officialVideo",
                         JObj [("type", JStr "LIVE"); ("status", JInt 3)])]))
         "http://www.vlive.tv/video/1326" [])
  = inl (Raised TypeError).
Proof.
  rewrite (status_not_a_string
             (H := Sample.post_host
                     (JObj [("officialVideo",
                             JObj [("type", JStr "LIVE"); ("status", JInt 3)])]))
             "http://www.vlive.tv/video/1326" "1326" _ _ (JInt 3) JNull [] _
             eq_refl eq_refl eq_refl eq_refl eq_refl eq_refl eq_refl).
  reflexivity.
Defined.

Lemma login_stops_at_first_failure_witness :
  _login (H := Sample2.offline_host (ExtractorError "Unable to download webpage"
                                       false OtherCause)
                 (Some "a@b.c", Some "pw")) []
  = (inl (ExtractorError "Unable to download webpage" false OtherCause),
     [Sent login_page_request]).
Proof.
  apply (proj1 (login_stops_at_first_failure
                  (H := Sample2.offline_host
                          (ExtractorError "Unable to download webpage" false
                             OtherCause)
                          (Some "a@b.c", Some "pw"))
                  "a@b.c" "pw" [] _ eq_refl)).
  reflexivity.
Defined.

End VideoExtra.

(** ** More on channel listings *)

Module ChannelExtra.
Import Py Re Host Props Props2 MFacts VLiveChannelIE ChannelFacts.

Lemma add_entries_not_object before v after entries :
  forallb is_obj before = true -> is_obj v = false ->
  add_entries (before ++ v :: after) entries = inl AttributeError.
Proof.
  revert entries; induction before as [|x before IH]; intros entries Hb Hv; simpl.
  - destruct v; simpl in *; congruence.
  - simpl in Hb. apply andb_prop in Hb as [Hx Hb].
    destruct x; try discriminate. simpl.
    destruct (truthy _); simpl; now apply IH.
Qed.

Section Loop.
Context `{InfoExtractor}.

Lemma page_loop_step fuel channel_seq p channel_name entries tr vl tr1 :
  list_page channel_seq p tr = (inr vl, tr1) ->
  page_loop (S fuel) channel_seq p channel_name entries tr
  = (channel_name <- (if negb (truthy channel_name) then lift (name_of vl)
                      else ret channel_name) ;;
     videos <- lift (videos_of vl) ;;
     if negb (truthy videos) then ret (Some (channel_name, entries))
     else
       items <- lift (iterate videos) ;;
       entries <- lift (add_entries items entries) ;;
       page_loop fuel channel_seq (p + 1) channel_name entries) tr1.
Proof. intros Hcall. cbn [page_loop]. now rewrite (bind_ok _ _ _ _ _ Hcall). Qed.





(** X20: the listing loop has no bound of its own.  Against an upstream
    that answers every page with a non-empty list, asking for [fuel]
    pages sends [fuel] requests and has not returned. *)
Theorem listing_has_no_bound channel_seq :
  (forall tr p, exists vl tr1 page,
      list_page channel_seq p tr = (inr vl, tr1)
      /\ videos_of vl = inr (JList page) /\ page <> []
      /\ forallb is_obj page = true) ->
  forall fuel p channel_name entries tr,
    page_loop fuel channel_seq p channel_name entries tr
    = (inr None, (tr ++ asked channel_seq p fuel)%list).
Proof.
  intros Hup fuel. induction fuel as [|fuel IH]; intros p channel_name entries tr.
  - simpl. now rewrite app_nil_r.
  - destruct (Hup tr p) as (vl & tr1 & page & Hcall & Hvideos & Hne & Hobj).
    rewrite (page_loop_step _ _ _ _ _ _ _ _ Hcall).
    destruct (channel_name_step channel_name vl) as [n Hn].
    unfold name_of. rewrite Hn. unfold bind at 1, ret at 1.
    rewrite (bind_lift _ _ _ _ Hvideos).
    replace (truthy (JList page)) with true
      by (destruct page; [congruence | reflexivity]).
    cbn [negb].
    rewrite (bind_lift (iterate (JList page)) _ _ page eq_refl).
    rewrite (bind_lift _ _ _ _ (add_entries_total page entries Hobj)).
    rewrite IH. apply list_page_trace in Hcall. subst tr1.
    rewrite <- app_assoc. reflexivity.
Qed.

(** X21: an item of a page that is no object raises [AttributeError]:
    the extraction fails as a whole, the entries gathered so far
    included. *)
Theorem item_not_an_object fuel channel_seq p channel_name entries tr vl tr1
        before v after :
  list_page channel_seq p tr = (inr vl, tr1) ->
  videos_of vl = inr (JList (before ++ v :: after)) ->
  forallb is_obj before = true -> is_obj v = false ->
  page_loop (S fuel) channel_seq p channel_name entries tr
  = (inl (Raised AttributeError), tr1).
Proof.
  intros Hcall Hvideos Hb Hv.
  rewrite (page_loop_step _ _ _ _ _ _ _ _ Hcall).
  destruct (channel_name_step channel_name vl) as [n Hn].
  unfold name_of. rewrite Hn. unfold bind at 1, ret at 1.
  rewrite (bind_lift _ _ _ _ Hvideos).
  replace (truthy (JList (before ++ v :: after))) with true
    by (destruct before; reflexivity).
  cbn [negb].
  rewrite (bind_lift (iterate (JList (before ++ v :: after))) _ _ _ eq_refl).
  apply bind_lift_fail. now apply add_entries_not_object.
Qed.

Lemma decode_unfold channel_code tr :
  _call_api "decodeChannelCode" "Code" (JStr channel_code) "decode channel code" [] tr
  = match json_of tr (decode_request channel_code) with
    | inl e => (inl e, (tr ++ [Sent (decode_request channel_code)])%list)
    | inr r =>
        lift (subscript r "result") (tr ++ [Sent (decode_request channel_code)])%list
    end.
Proof. reflexivity. Qed.

Lemma extends_ret {A} (a : A) : extends (ret a).
Proof. intros tr; exists []; simpl; now rewrite app_nil_r. Qed.

Lemma extends_raise {A} e : extends (@raise A e).
Proof. intros tr; exists []; simpl; now rewrite app_nil_r. Qed.

Lemma extends_lift {A} (x : exc A) : extends (lift x).
Proof. destruct x; [apply extends_raise | apply extends_ret]. Qed.

Lemma extends_bind {A B} (m : M A) (k : A -> M B) :
  extends m -> (forall a, extends (k a)) -> extends (bind m k).
Proof.
  intros Hm Hk tr. unfold bind. destruct (Hm tr) as [r1 E1].
  destruct (m tr) as [[e|a] tr1]; simpl in E1; subst tr1.
  - now exists r1.
  - destruct (Hk a (tr ++ r1)%list) as [r2 E2].
    exists (r1 ++ r2)%list. rewrite E2. now rewrite <- app_assoc.
Qed.

Lemma extends_call_api path suffix value note query :
  extends (_call_api path suffix value note query).
Proof.
  unfold _call_api. apply extends_bind; [|intros; apply extends_lift].
  intros tr. unfold _download_json. simpl. eauto.
Qed.

Lemma extends_page_loop fuel : forall channel_seq p channel_name entries,
  extends (page_loop fuel channel_seq p channel_name entries).
Proof.
  induction fuel as [|fuel IH]; intros; cbn [page_loop]; [apply extends_ret|].
  apply extends_bind; [apply extends_call_api|]. intros vl.
  apply extends_bind.
  { destruct (negb _); [apply extends_lift | apply extends_ret]. }
  intros n. apply extends_bind; [apply extends_lift|]. intros videos.
  destruct (negb _); [apply extends_ret|].
  apply extends_bind; [apply extends_lift|]. intros items.
  apply extends_bind; [apply extends_lift|]. intros es. apply IH.
Qed.

(** X22: the channel code is decoded before anything else: the first
    request of an extraction is the decode request for the code of the
    URL, whatever follows; when that request fails its error is raised,
    and when its answer has no [result] or no [channelSeq] the lookup
    error is raised, with no page of the listing asked for. *)
Theorem code_decoded_first fuel url channel_code tr :
  _match_id _VALID_URL url = inr channel_code ->
  (exists rest,
     snd (_real_extract fuel url tr)
     = (tr ++ Sent (decode_request channel_code) :: rest)%list)
  /\ (forall e, json_of tr (decode_request channel_code) = inl e ->
                _real_extract fuel url tr
                = (inl e, (tr ++ [Sent (decode_request channel_code)])%list))
  /\ (forall r e, json_of tr (decode_request channel_code) = inr r ->
                  (let? res := subscript r "result" in subscript res "channelSeq")
                  = inl e ->
                  _real_extract fuel url tr
                  = (inl (Raised e), (tr ++ [Sent (decode_request channel_code)])%list)).
Proof.
  intros Hid. unfold _real_extract. rewrite (bind_lift _ _ _ _ Hid).
  set (tr1 := (tr ++ [Sent (decode_request channel_code)])%list).
  assert (Hcall : forall B (K : json -> M B),
    bind (_call_api "decodeChannelCode" "Code" (JStr channel_code)
            "decode channel code" []) K tr
    = match json_of tr (decode_request channel_code) with
      | inl e => (inl e, tr1)
      | inr r =>
          match subscript r "result" with
          | inl e => (inl (Raised e), tr1)
          | inr res => K res tr1
          end
      end).
  { intros B K. unfold bind. rewrite decode_unfold.
    destruct (json_of tr (decode_request channel_code)); [reflexivity|].
    destruct (subscript _ "result"); reflexivity. }
  rewrite Hcall. clear Hcall. cbv beta.
  assert (Htr1 : forall rest, (tr1 ++ rest)%list
                 = (tr ++ Sent (decode_request channel_code) :: rest)%list)
    by (intros; unfold tr1; now rewrite <- app_assoc).
  destruct (json_of tr (decode_request channel_code)) as [e|r].
  - split; [exists []; reflexivity|]. split; [|discriminate].
    intros e' E; now inversion E.
  - destruct (subscript r "result") as [e1|res] eqn:Hres.
    + split; [exists []; reflexivity|]. split; [discriminate|].
      intros r' e' E; inversion E; subst r'. rewrite Hres. cbn [exc_bind].
      intros E'; now inversion E'.
    + destruct (subscript res "channelSeq") as [e2|seq] eqn:Hseq.
      * rewrite (bind_lift_fail (inl e2) _ _ e2 eq_refl).
        split; [exists []; reflexivity|]. split; [discriminate|].
        intros r' e' E; inversion E; subst r'. rewrite Hres. cbn [exc_bind].
        rewrite Hseq. intros E'; now inversion E'.
      * rewrite (bind_lift (inr seq) _ _ seq eq_refl).
        split; [|split; [discriminate|]].
        -- unfold bind.
           destruct (extends_page_loop fuel seq 1%Z JNull [] tr1) as [rest E].
           destruct (page_loop fuel seq 1%Z JNull [] tr1) as [[e|[[n es]|]] tr2];
             cbn [snd] in *; subst tr2; exists rest; apply Htr1.
        -- intros r' e' E; inversion E; subst r'. rewrite Hres. cbn [exc_bind].
           rewrite Hseq. discriminate.
Qed.

End Loop.


Lemma listing_has_no_bound_witness :
  page_loop (H := Sample2.endless_host) 2 (JInt 7) 1 JNull [] []
  = (inr None, asked (JInt 7) 1 2).
Proof.
  apply (listing_has_no_bound (H := Sample2.endless_host) (JInt 7)).
  intros tr p. do 3 eexists.
  split; [reflexivity|]. split; [reflexivity|]. split; [discriminate | reflexivity].
Defined.

Lemma item_not_an_object_witness :
  fst (page_loop (H := Sample2.broken_host) 1 (JInt 7) 1 JNull [] [])
  = inl (Raised AttributeError).
Proof.
  rewrite (item_not_an_object (H := Sample2.broken_host) 0 (JInt 7) 1 JNull [] []
             _ _ [Sample.item (JInt 5)] (JInt 6) [] eq_refl eq_refl eq_refl eq_refl).
  reflexivity.
Defined.

Lemma code_decoded_first_witness :
  _real_extract (H := Sample.post_host (JObj [("result", JObj [])])) 3
    "http://channels.vlive.tv/FCD4B" []
  = (inl (Raised KeyError), [Sent (decode_request "FCD4B")]).
Proof.
  apply (proj2 (proj2 (code_decoded_first
                         (H := Sample.post_host (JObj [("result", JObj [])])) 3
                         "http://channels.vlive.tv/FCD4B" "FCD4B" [] eq_refl))
           (JObj [("result", JObj [])]) KeyError eq_refl eq_refl).
Defined.

Lemma channel_listing_witness :
  exists channel_name,
    fst (_real_extract (H := Sample.channel_host) 3
           "http://channels.vlive.tv/FCD4B" [])
    = inr (Some (playlist_result
                   [video_ref "5"; video_ref "abc"; video_ref "5"; video_ref "9"]
                   (JStr "FCD4B") channel_name)).
Proof.
  assert (S : Serves (H := Sample.channel_host) (JInt 7) 1
                [Sent (decode_request "FCD4B")]
                [[Sample.item (JInt 5); Sample.item (JStr "abc");
                  Sample.item (JInt 0); JObj []; Sample.item (JInt 5)];
                 [Sample.item (JInt 9)]]
                ([Sent (decode_request "FCD4B")] ++ asked (JInt 7) 1 3)%list).
  { eapply ServesMore; [reflexivity | reflexivity | discriminate |].
    eapply ServesMore; [reflexivity | reflexivity | discriminate |].
    eapply ServesLast; reflexivity. }
  destruct (channel_listing (H := Sample.channel_host)
              "http://channels.vlive.tv/FCD4B" "FCD4B" [] _ _ (JInt 7) _ _ 3
              eq_refl eq_refl eq_refl S eq_refl (le_n 3))
    as [name E].
  exists name. now rewrite E.
Defined.

End ChannelExtra.

(** ** More on playlists *)

Module PlaylistExtra.
Import Py Re Host Props Props2 ReFacts StrFacts MFacts UrlFacts VLivePlaylistIE.
Import PlaylistFacts.

Section Playlist.
Context `{InfoExtractor}.

(** The title pattern matches the texts that [titled] describes. *)
Lemma title_matched webpage before text rest :
  titled webpage before text rest ->
  exists m g, webpage = before ++ m ++ rest /\ Matches playlist_title_re m [] g.
Proof.
  intros (a & b & c & ws & d & E & Hane & Ha & Hb & Hc & Hws & Hdne & Hd & Htne & Ht).
  exists ("<div" ++ a ++ ("class=" ++ String dquote "") ++ b ++ "multicam_playlist"
            ++ c ++ ">" ++ ws ++ "<h3" ++ d ++ ">" ++ text),
    [("1", text)].
  split; [rewrite E; now repeat rewrite append_assoc|].
  unfold playlist_title_re.
  apply MCat with (g1 := []); [apply MLit|].
  apply MCat with (g1 := []); [now apply MPlus|].
  apply MCat with (g1 := []); [apply MLit|].
  apply MCat with (g1 := []); [now apply MStar|].
  apply MCat with (g1 := []); [apply MLit|].
  apply MCat with (g1 := []); [now apply MStar|].
  apply MCat with (g1 := []); [apply MLit|].
  apply MCat with (g1 := []); [now apply MStar|].
  apply MCat with (g1 := []); [apply MLit|].
  apply MCat with (g1 := []); [now apply MPlus|].
  apply MCat with (g1 := []); [apply MLit|].
  apply MGroup. now apply MPlus.
Qed.

(** What the title pattern finds at the head of a text: a title as
    [titled] describes it, taken as far as it goes. *)
Lemma title_match_shape (s : string) g :
  re_match playlist_title_re s = Some g ->
  exists text rest,
    titled s "" text rest /\ g = [("1", text)]
    /\ starts_in (CNot (CChar "<")) rest = false.
Proof.
  unfold re_match, playlist_title_re. intros Hm.
  repeat match type of Hm with
         | rmatch (_ >> _) _ _ _ = Some _ =>
             let m := fresh "m" in let t := fresh "t" in
             let g1 := fresh "g" in let M := fresh "M" in
             apply rmatch_cat_sound in Hm as (m & t & g1 & -> & M & Hm)
         end.
  cbn [rmatch] in Hm.
  invert_matches.
  match type of Hm with
  | plus_k ?cl ?t ?k = Some _ =>
      apply (plus_k_longest cl (fun m (_ : string) => [("1", m)]) t) in Hm
        as (text & rest & -> & Htne & Ht & Hrest & ->)
  end.
  exists text, rest. split; [|auto].
  match goal with
  | Ha : all_in (CNot (CChar ">")) ?a = true, Hb : all_in (CNot (CChar dquote)) ?b = true,
    Hc : all_in (CNot (CChar ">")) ?c = true, Hw : all_in CSpace ?ws = true,
    Hd : all_in (CNot (CChar ">")) ?d = true
    |- context [?a ++ _ ++ ?b ++ _ ++ ?c ++ _ ++ ?ws ++ _ ++ ?d ++ _] =>
      exists a, b, c, ws, d
  end.
  repeat split; auto.
Qed.

(** The title search, on any page: either the page has no title, and the
    search warns and returns nothing; or it returns the cleaned text of a
    title of the page, the first one there is, taken as far as it goes. *)
Lemma title_search webpage tr :
  exists title warnings,
    _html_search_regex playlist_title_re webpage "playlist title" tr
    = (inr title, (tr ++ warnings)%list)
    /\ ((title = JNull
         /\ warnings = [ReportWarning (unable_to_extract "playlist title")]
         /\ forall before text rest, ~ titled webpage before text rest)
        \/
        (exists before text rest,
           titled webpage before text rest
           /\ title = JStr (clean_html text) /\ warnings = []
           /\ starts_in (CNot (CChar "<")) rest = false
           /\ forall before' text' rest',
                titled webpage before' text' rest' ->
                String.length before <= String.length before')).
Proof.
  unfold _html_search_regex.
  destruct (re_search playlist_title_re webpage) as [g|] eqn:Es.
  - apply re_search_leftmost in Es as (before & m & rest0 & E & _ & Hm & Hleft).
    apply title_match_shape in Hm as (text & rest & Ht & -> & Hrest).
    assert (Hne : text <> "").
    { destruct Ht as (a & b & c & ws & d & _ & _ & _ & _ & _ & _ & _ & _ & Hne & _).
      exact Hne. }
    exists (JStr (clean_html text)), []. rewrite app_nil_r. split.
    + cbn [group String.eqb Ascii.eqb Bool.eqb].
      destruct (text =? "") eqn:Et; [|reflexivity].
      apply String.eqb_eq in Et. contradiction.
    + right. exists before, text, rest. repeat split; auto.
      * destruct Ht as (a & b & c & ws & d & Et & Hrestt).
        exists a, b, c, ws, d. split; [|exact Hrestt].
        rewrite E, Et. reflexivity.
      * intros before' text' rest' Ht'.
        apply title_matched in Ht' as (m' & g' & E' & M').
        eapply Hleft; eauto.
  - exists JNull, [ReportWarning (unable_to_extract "playlist title")].
    split; [reflexivity|]. left. repeat split.
    intros before text rest Ht.
    apply title_matched in Ht as (m & g & E & M).
    apply (re_search_complete _ before m rest g M). now rewrite <- E.
Qed.

(** X24: when the identifier list is found and parses, the result is a
    playlist with the id of the URL and one reference for every item of
    the list, in the list's order: nothing is skipped (a falsy item
    neither) and nothing is merged.  Its title is the one the page has:
    the cleaned text of the first title of the page, taken as far as it
    goes; a page without title gives no title, and a warning. *)
Theorem playlist_keeps_every_item url video_id playlist_id noplaylist webpage raw
        item_ids items tr :
  match_groups url = inr (video_id, playlist_id) ->
  get params "noplaylist" = inr noplaylist ->
  truthy noplaylist = false ->
  page_of (tr ++ [ToScreen (playlist_notice playlist_id)])%list
    (playlist_page_request video_id playlist_id) = inr webpage ->
  _search_regex playlist_seqs_re webpage = JStr raw ->
  json_loads raw = Some item_ids ->
  iterate item_ids = inr items ->
  exists title warnings,
    _real_extract url tr
    = (inr (playlist_result
              (map (fun item_id => video_ref (compat_str item_id)) items)
              (JStr playlist_id) title),
       (tr ++ [ToScreen (playlist_notice playlist_id);
               Sent (playlist_page_request video_id playlist_id)]
           ++ warnings)%list)
    /\ ((title = JNull
         /\ warnings = [ReportWarning (unable_to_extract "playlist title")]
         /\ forall before text rest, ~ titled webpage before text rest)
        \/
        (exists before text rest,
           titled webpage before text rest
           /\ title = JStr (clean_html text) /\ warnings = []
           /\ starts_in (CNot (CChar "<")) rest = false
           /\ forall before' text' rest',
                titled webpage before' text' rest' ->
                String.length before <= String.length before')).
Proof.
  intros Hurl Hget Hflag Hpage Hraw Hjson Hiter.
  assert (Htruthy : truthy (JStr raw) = true).
  { destruct (UrlExtra.seqs_capture_shape webpage) as [E | (body & E & _)];
      rewrite Hraw in E; [discriminate|]. now inversion E. }
  set (tr2 := (tr ++ [ToScreen (playlist_notice playlist_id);
                      Sent (playlist_page_request video_id playlist_id)])%list).
  destruct (title_search webpage tr2) as (title & warnings & Htitle & Hkind).
  exists title, warnings. split; [|exact Hkind].
  unfold _real_extract.
  rewrite (bind_lift _ _ _ _ Hurl). cbv beta iota.
  rewrite (bind_lift _ _ _ _ Hget), Hflag.
  unfold to_screen, emit, _download_webpage, send_page.
  unfold bind at 1. unfold bind at 1.
  change (DownloadWebpage _ _ None None [])
    with (playlist_page_request video_id playlist_id).
  change (ToScreen _) with (ToScreen (playlist_notice playlist_id)) at 1 2.
  rewrite Hpage. cbv zeta. rewrite Hraw, Htruthy. cbn [negb].
  rewrite <- app_assoc. cbn [app]. fold tr2.
  unfold _parse_json. rewrite Hjson.
  unfold bind at 1, ret at 1.
  rewrite (bind_lift _ _ _ _ Hiter).
  rewrite (bind_ok _ _ _ _ _ Htitle).
  rewrite UrlExtra.entries_of_refs. unfold ret, tr2.
  now rewrite <- app_assoc.
Qed.

End Playlist.

Lemma playlist_keeps_every_item_witness :
  exists title warnings,
    _real_extract (H := Sample.playlist_host "playlistVideoSeqs = [1, 2];" false)
      "http://www.vlive.tv/video/117956/playlist/117963" []
    = (inr (playlist_result [video_ref "1"; video_ref "2"] (JStr "117963") title),
       ([ToScreen (playlist_notice "117963");
         Sent (playlist_page_request "117956" "117963")] ++ warnings)%list).
Proof.
  destruct (playlist_keeps_every_item
              (H := Sample.playlist_host "playlistVideoSeqs = [1, 2];" false)
              "http://www.vlive.tv/video/117956/playlist/117963"
              "117956" "117963" (JBool false) "playlistVideoSeqs = [1, 2];"
              "[1, 2]" (JList [JInt 1; JInt 2]) [JInt 1; JInt 2] []
              eq_refl eq_refl eq_refl eq_refl eq_refl eq_refl eq_refl)
    as (title & warnings & E & _).
  exists title, warnings. exact E.
Defined.

End PlaylistExtra.

(** ** URLs that are not for the extractor *)

Module MismatchExtra.
Import Py Re Host Props MFacts.

Section Mismatch.
Context `{InfoExtractor}.

(** X1: an URL that the extractor's pattern does not match makes the
    extraction fail at once: nothing is sent and nothing is printed. *)
Theorem url_mismatch_sends_nothing url fuel tr :
  (re_match VLiveIE._VALID_URL url = None ->
   VLiveIE._real_extract url tr = (inl (Raised AssertionError), tr))
  /\
  (re_match VLiveChannelIE._VALID_URL url = None ->
   VLiveChannelIE._real_extract fuel url tr = (inl (Raised AssertionError), tr))
  /\
  (re_match VLivePlaylistIE._VALID_URL url = None ->
   VLivePlaylistIE._real_extract url tr = (inl (Raised AttributeError), tr)).
Proof.
  split; [|split]; intros Hno.
  - unfold VLiveIE._real_extract. apply bind_lift_fail.
    unfold _match_id. now rewrite Hno.
  - unfold VLiveChannelIE._real_extract. apply bind_lift_fail.
    unfold _match_id. now rewrite Hno.
  - unfold VLivePlaylistIE._real_extract. apply bind_lift_fail.
    unfold VLivePlaylistIE.match_groups. now rewrite Hno.
Qed.

End Mismatch.

Lemma url_mismatch_sends_nothing_witness :
  VLivePlaylistIE._real_extract (H := Sample.playlist_host "" false)
    "http://www.vlive.tv/video/1326" []
  = (inl (Raised AttributeError), []).
Proof.
  apply (proj2 (proj2 (url_mismatch_sends_nothing
                         (H := Sample.playlist_host "" false)
                         "http://www.vlive.tv/video/1326" 0 []))).
  reflexivity.
Defined.

End MismatchExtra.
